(** * Customer-service backend: ticket messaging and the per-ticket
      WebSocket broadcast registry ([main.py], [schemas.py]).

    The handlers of [main.py] are embedded as functions in a state-and-
    exception monad over the three pieces of state they touch: the document
    store, the in-memory registry [_ws_manager] and the wire (the frames
    handed to [send_text]). *)

From Stdlib Require Import NArith Ascii String Lia.
From stdpp Require Import base option list strings gmap gmultiset.

#[local] Set Warnings "-clear-no-such-hyp".

Local Open Scope string_scope.
Local Open Scope N_scope.
Local Open Scope list_scope.

(** ** [bson.ObjectId] *)

(** An [ObjectId] holds the bytes that [bytes.fromhex] reads from a string
    of 24 characters: the driver checks the length of the string and nothing
    else.  Twelve bytes when the string is 24 hexadecimal digits; fewer when
    white space stands between pairs of digits, which [bytes.fromhex]
    skips.  A 12-byte identifier is carried here as the number its bytes
    spell, below [2^96]; a shorter one, of [k] bytes spelling [n], as
    [2^96 + 2^(8k) + n].  [str] renders two lowercase digits per byte. *)
Abbreviation ObjectId := N (only parsing).

Definition hex_val (c : ascii) : option N :=
  let n := N_of_ascii c in
  if (48 <=? n) && (n <=? 57) then Some (n - 48)
  else if (97 <=? n) && (n <=? 102) then Some (n - 87)
  else if (65 <=? n) && (n <=? 70) then Some (n - 55)
  else None.

(** ASCII white space: space, and [\t \n \v \f \r]. *)
Definition is_space (c : ascii) : bool :=
  let n := N_of_ascii c in (n =? 32) || ((9 <=? n) && (n <=? 13)).

(** [bytes.fromhex(s)]: white space is skipped before a byte, never between
    the two digits of one; [top] is the first digit of the byte being read,
    [value] and [count] the bytes read so far. *)
Fixpoint fromhex (s : string) (top : option N) (value : N) (count : nat)
    : option (N * nat) :=
  match s with
  | EmptyString =>
      match top with
      | None => Some (value, count)
      | Some _ => None
      end
  | String c s' =>
      match top with
      | Some t =>
          match hex_val c with
          | Some b => fromhex s' None (256 * value + (16 * t + b)) (S count)
          | None => None
          end
      | None =>
          if is_space c then fromhex s' None value count
          else
            match hex_val c with
            | Some t => fromhex s' (Some t) value count
            | None => None
            end
      end
  end.

Definition ObjectId_of_bytes (value : N) (count : nat) : ObjectId :=
  if (count =? 12)%nat then value
  else 2 ^ 96 + 2 ^ (8 * N.of_nat count) + value.

Definition ObjectId_of_str (s : string) : option ObjectId :=
  if (String.length s =? 24)%nat then
    match fromhex s None 0 0 with
    | Some (value, count) => Some (ObjectId_of_bytes value count)
    | None => None
    end
  else None.

Definition hex_digit (d : N) : ascii :=
  ascii_of_N (if d <? 10 then 48 + d else 87 + d).

Fixpoint hex_render (n : nat) (v : N) (acc : string) : string :=
  match n with
  | O => acc
  | S n' => hex_render n' (v / 16) (String (hex_digit (v mod 16)) acc)
  end.

Definition str_ObjectId (o : ObjectId) : string :=
  if o <? 2 ^ 96 then hex_render 24 o ""
  else
    let r := o - 2 ^ 96 in
    let k := N.log2 r / 8 in
    hex_render (2 * N.to_nat k) (r - 2 ^ (8 * k)) "".

(** ** Python values, documents and exceptions *)

(** [datetime]: a point in time, identified by what [isoformat()] prints. *)
Record datetime := Datetime { isoformat : string }.

(** What the store gives back for a time written to it: BSON keeps
    milliseconds and no UTC offset.  The times [main.py] writes are readings
    of [datetime.now(timezone.utc)], which print as
    [YYYY-MM-DDTHH:MM:SS.ffffff+00:00] (no fraction when it is zero); read
    back, such a time prints without the offset and with the microseconds cut
    to milliseconds. *)
Definition bson_datetime (d : datetime) : datetime :=
  let s := isoformat d in
  let seconds := String.substring 0 19 s in
  let millis :=
    match String.substring 19 (String.length s - 19) s with
    | String "."%char fraction => String.substring 0 3 fraction
    | _ => "000"
    end in
  Datetime (if String.eqb millis "000" then seconds
            else String.append seconds
                   (String.append "." (String.append millis "000"))).

(** The values that occur in the documents of this service. *)
Inductive value :=
| VNone
| VBool (b : bool)
| VStr (s : string)
| VObjectId (o : ObjectId)
| VDatetime (d : datetime).

#[global] Instance datetime_eq_dec : EqDecision datetime.
Proof. solve_decision. Defined.
#[global] Instance value_eq_dec : EqDecision value.
Proof. solve_decision. Defined.

(** A value as the store gives it back. *)
Definition bson_value (v : value) : value :=
  match v with
  | VDatetime d => VDatetime (bson_datetime d)
  | _ => v
  end.

(** A document (a Python [dict] with string keys). *)
Abbreviation dict := (gmap string value) (only parsing).

(** What [json.dumps] accepts without a custom encoder. *)
Definition json_value (v : value) : bool :=
  match v with
  | VNone | VBool _ | VStr _ => true
  | VObjectId _ | VDatetime _ => false
  end.

Definition json_serializable (d : dict) : Prop :=
  map_Forall (fun _ v => json_value v = true) d.

#[global] Instance json_serializable_dec d : Decision (json_serializable d).
Proof. unfold json_serializable. apply _. Defined.

(** The text of a WebSocket frame: either a string the client sent, or the
    string [json.dumps d] of a dictionary [d]. *)
Inductive text :=
| Raw (s : string)
| Json (d : dict).

Inductive exn :=
| HTTPException (status_code : nat) (detail : string)
| WebSocketDisconnect (code : nat)
| TypeError
| InvalidId
| DuplicateKeyError
| RuntimeError (what : string).

Inductive result (A : Type) :=
| Return (a : A)
| Raise (e : exn).
Arguments Return {A} a.
Arguments Raise {A} e.

(** ** The state of the service *)

(** A connection handle; two handles are the same connection when equal. *)
Abbreviation WebSocket := nat (only parsing).

(** One call of [send_text]: the handle, the text, and whether the transport
    took it. *)
Record attempt := Attempt { to : WebSocket; data : text; ok : bool }.

Record WSManager := mkWSManager {
  active_connections : gmap string (list WebSocket)
}.

Record State := mkState {
  db : gmap string (gmap N (gmap string value));
  ws_manager : WSManager;
  wire : list attempt;
  (** [fault n] is what the transport raises on the [n]-th call of
      [send_text], if it raises. *)
  fault : nat -> option exn
}.

Definition set_db (f : gmap string (gmap N (gmap string value)) ->
                      gmap string (gmap N (gmap string value))) (st : State) : State :=
  mkState (f (db st)) (ws_manager st) (wire st) (fault st).
Definition set_ws_manager (f : WSManager -> WSManager) (st : State) : State :=
  mkState (db st) (f (ws_manager st)) (wire st) (fault st).
Definition set_wire (f : list attempt -> list attempt) (st : State) : State :=
  mkState (db st) (ws_manager st) (f (wire st)) (fault st).
Definition set_fault (f : nat -> option exn) (st : State) : State :=
  mkState (db st) (ws_manager st) (wire st) f.

(** ** A state-and-exception monad for the handlers *)

Definition M (A : Type) : Type := State -> result A * State.

Definition ret {A} (a : A) : M A := fun st => (Return a, st).
Definition raise {A} (e : exn) : M A := fun st => (Raise e, st).
Definition bind {A B} (m : M A) (k : A -> M B) : M B :=
  fun st =>
    match m st with
    | (Return a, st') => k a st'
    | (Raise e, st') => (Raise e, st')
    end.
(** [try: m except Exception: pass] *)
Definition try_pass (m : M unit) : M unit :=
  fun st =>
    match m st with
    | (Return _, st') => (Return tt, st')
    | (Raise _, st') => (Return tt, st')
    end.
Definition lift {A} (r : result A) : M A := fun st => (r, st).

#[global] Instance M_ret : MRet M := @ret.
#[global] Instance M_bind : MBind M := fun A B k m => bind m k.

(** [try: m except WebSocketDisconnect: h] *)
Definition try_except_disconnect {A} (m : M A) (h : M A) : M A :=
  fun st =>
    match m st with
    | (Raise (WebSocketDisconnect _), st') => h st'
    | other => other
    end.

(** ** The wire *)

(** [await websocket.send_text(t)]: the call is recorded; it raises when the
    transport faults on this call. *)
Definition send_text (websocket : WebSocket) (t : text) : M unit :=
  fun st =>
    match fault st (length (wire st)) with
    | None => (Return tt, set_wire (fun w => w ++ [Attempt websocket t true]) st)
    | Some e => (Raise e, set_wire (fun w => w ++ [Attempt websocket t false]) st)
    end.

(** [json.dumps(d)] raises [TypeError] on a value it cannot encode. *)
Definition json_dumps (d : dict) : result text :=
  if decide (json_serializable d) then Return (Json d) else Raise TypeError.

(** The frames a connection has received, in order. *)
Definition received (websocket : WebSocket) (w : list attempt) : list text :=
  data <$> filter (fun a => to a = websocket ∧ ok a = true) w.

(** ** schemas.py *)

Module MessageSchema.
Inductive Literal := text | system.
Record t := mk {
  ticket_id : string;
  sender_email : string;
  content : string;
  type : Literal
}.
Definition type_str (l : Literal) : string :=
  match l with text => "text" | system => "system" end.
(** [msg.model_dump()] *)
Definition model_dump (msg : t) : dict :=
  <["ticket_id" := VStr (ticket_id msg)]>
  (<["sender_email" := VStr (sender_email msg)]>
  (<["content" := VStr (content msg)]>
  (<["type" := VStr (type_str (type msg))]> ∅))).
End MessageSchema.

(** ** The persistence gateway *)

(** [db[name]]: a collection maps the [_id] of each document to the
    document (which holds its [_id] too); one never written to is empty. *)
Definition collection (name : string) (st : State) : gmap N (gmap string value) :=
  default ∅ (db st !! name).

(** [db[name].insert_one(doc)] with the identifier [new_id] drawn by the
    driver: the [_id] index is unique. *)
Definition insert_one (name : string) (doc : dict) (new_id : ObjectId) : M ObjectId :=
  fun st =>
    match collection name st !! new_id with
    | Some _ => (Raise DuplicateKeyError, st)
    | None =>
        (Return new_id,
         set_db (fun d => <[name := <[new_id := <["_id" := VObjectId new_id]> doc]>
                                      (collection name st)]> d) st)
    end.

(** Modelled from the spec: [create_document] of [database.py], which is not
    among the sources.  The gateway's create stamps the document with its
    creation time, writes it, and hands back the new identifier in its
    string form.  [now] is the creation time as the store keeps it. *)
Definition create_document (name : string) (data : dict)
    (now : datetime) (new_id : ObjectId) : M string :=
  o ← insert_one name (<["created_at" := VDatetime now]> data) new_id;
  mret (str_ObjectId o).

(** [db[name].find_one({"_id": o})] *)
Definition find_one (name : string) (o : ObjectId) : M (option (gmap string value)) :=
  fun st => (Return (collection name st !! o), st).

(** [db[name].update_one({"_id": o}, {"$set": updates}).matched_count]; the
    fields are set to the values as the store keeps them. *)
Definition update_one (name : string) (o : ObjectId) (updates : dict) : M nat :=
  fun st =>
    match collection name st !! o with
    | Some doc =>
        (Return 1%nat,
         set_db (fun d => <[name := <[o := (bson_value <$> updates) ∪ doc]>
                                      (collection name st)]> d) st)
    | None => (Return 0%nat, st)
    end.

(** ** main.py: utilities *)

(** What the loop of [encode_doc] makes of one value: an [ObjectId] becomes
    its [str], a [datetime] its [isoformat()]. *)
Definition encode_value (v : value) : value :=
  match v with
  | VObjectId o => VStr (str_ObjectId o)
  | VDatetime d => VStr (isoformat d)
  | _ => v
  end.

(** [ObjectIdEncoder.encode_doc]; a falsy [doc] ([None], [{}]) is given
    back as it is, otherwise ["_id"] is renamed to ["id"] and every value is
    encoded. *)
Definition encode_doc (doc : option (gmap string value)) : option (gmap string value) :=
  match doc with
  | None => None
  | Some d0 =>
      if decide (d0 = ∅) then Some d0
      else
        let d := match d0 !! "_id" with
                 | Some (VObjectId o) =>
                     <["id" := VStr (str_ObjectId o)]> (delete "_id" d0)
                 | _ => d0
                 end in
        Some (encode_value <$> d)
  end.

Definition oid (id_str : string) : result ObjectId :=
  match ObjectId_of_str id_str with
  | Some o => Return o
  | None => Raise (HTTPException 400 "Invalid ID format")
  end.

(** ** main.py: tickets *)

Definition get_ticket (ticket_id : string) : M (option (gmap string value)) :=
  o ← lift (oid ticket_id);
  doc ← find_one "ticket" o;
  match doc with
  | None => raise (HTTPException 404 "Ticket not found")
  | Some d =>
      if decide (d = ∅) then raise (HTTPException 404 "Ticket not found")
      else mret (encode_doc doc)
  end.

Module TicketUpdate.
Record t := mk {
  title : option string;
  description : option string;
  status : option string;
  priority : option string;
  assigned_to : option string
}.
Definition field (v : option string) : value :=
  match v with Some s => VStr s | None => VNone end.
(** [payload.model_dump()] *)
Definition model_dump (payload : t) : dict :=
  <["title" := field (title payload)]>
  (<["description" := field (description payload)]>
  (<["status" := field (status payload)]>
  (<["priority" := field (priority payload)]>
  (<["assigned_to" := field (assigned_to payload)]> ∅)))).
End TicketUpdate.

Definition update_ticket (ticket_id : string) (payload : TicketUpdate.t)
    (now : datetime) : M (option (gmap string value)) :=
  let updates := filter (fun kv => kv.2 ≠ VNone) (TicketUpdate.model_dump payload) in
  if decide (updates = ∅) then mret (Some {["updated" := VBool false]})
  else
    let updates := <["updated_at" := VDatetime now]> updates in
    o ← lift (oid ticket_id);
    matched_count ← update_one "ticket" o updates;
    if decide (matched_count = 0%nat) then raise (HTTPException 404 "Ticket not found")
    else
      o' ← lift (oid ticket_id);
      doc ← find_one "ticket" o';
      mret (encode_doc doc).

(** ** main.py: the WebSocket manager *)

(** [list.remove(x)]: the first occurrence goes. *)
Fixpoint list_remove (x : WebSocket) (l : list WebSocket) : list WebSocket :=
  match l with
  | [] => []
  | y :: l' => if decide (x = y) then l' else y :: list_remove x l'
  end.

(** [self.active_connections.get(ticket_id, [])] *)
Definition conns (self : WSManager) (ticket_id : string) : list WebSocket :=
  default [] (active_connections self !! ticket_id).

(** [WSManager.connect]: [accept] is the outcome of the handshake
    [await websocket.accept()]. *)
Definition connect (self : WSManager) (ticket_id : string) (websocket : WebSocket)
    (accept : result unit) : result unit * WSManager :=
  match accept with
  | Raise e => (Raise e, self)
  | Return _ =>
      (Return tt,
       mkWSManager (<[ticket_id := conns self ticket_id ++ [websocket]]>
                      (active_connections self)))
  end.

(** [WSManager.disconnect] *)
Definition disconnect (self : WSManager) (ticket_id : string) (websocket : WebSocket)
    : WSManager :=
  let conns := conns self ticket_id in
  if decide (websocket ∈ conns)
  then mkWSManager (<[ticket_id := list_remove websocket conns]> (active_connections self))
  else self.

(** [WSManager.safe_send] *)
Definition safe_send (websocket : WebSocket) (data : dict) : M unit :=
  try_pass (t ← lift (json_dumps data); send_text websocket t).

(** The two methods above, on the global [_ws_manager]. *)
Definition ws_connect (ticket_id : string) (websocket : WebSocket)
    (accept : result unit) : M unit :=
  fun st =>
    let '(r, m) := connect (ws_manager st) ticket_id websocket accept in
    (r, set_ws_manager (fun _ => m) st).

Definition ws_disconnect (ticket_id : string) (websocket : WebSocket) : M unit :=
  fun st => (Return tt, set_ws_manager (fun m => disconnect m ticket_id websocket) st).

(** What [_ws_manager.active_connections.get(ticket_id, [])] hands to the
    loop of [post_message]: the registry's own list for the ticket when it
    has one, the very list that [connect] and [disconnect] go on changing in
    place; a new empty list, which nothing else holds, when it has none. *)
Inductive listeners := Registered (ticket_id : string) | Unregistered.

Definition ws_get (ticket_id : string) : M listeners :=
  fun st =>
    (Return match active_connections (ws_manager st) !! ticket_id with
            | Some _ => Registered ticket_id
            | None => Unregistered
            end, st).

(** The items of that list, as the registry [self] has them now. *)
Definition items (l : listeners) (self : WSManager) : list WebSocket :=
  match l with
  | Registered ticket_id => conns self ticket_id
  | Unregistered => []
  end.

(** ** main.py: messages *)

(** The body of the broadcast loop of [post_message], for one connection. *)
Definition broadcast_one (doc : option (gmap string value)) (ws : WebSocket) : M unit :=
  try_pass
    (match encode_doc doc with
     | None => raise TypeError
     | Some payload =>
         let payload := <["event" := VStr "new_message"]> payload in
         safe_send ws payload
     end).

(** [post_message] is a plain [def]: the framework runs it in a worker
    thread, next to the event loop on which the streams of [ticket_ws] run.
    Its [for] loop walks the registry's list with a list iterator, which
    keeps the list and an index and reads the list anew at every turn; so
    the handler is given in the pieces other activity can come between. *)

(** Up to the loop: the check, the write, the read back, and the list the
    loop is going to walk. *)
Definition post_message_begin (ticket_id : string) (msg : MessageSchema.t)
    (now : datetime) (new_id : ObjectId)
    : M (listeners * option (gmap string value)) :=
  if decide (MessageSchema.ticket_id msg ≠ ticket_id)
  then raise (HTTPException 400 "ticket_id mismatch")
  else
    _id ← create_document "message" (MessageSchema.model_dump msg) now new_id;
    o ← lift (match ObjectId_of_str _id with
              | Some o => Return o
              | None => Raise InvalidId
              end);
    doc ← find_one "message" o;
    l ← ws_get ticket_id;
    mret (l, doc).

(** One turn of the loop: the iterator, having handed out [i] items, takes
    the item at index [i] of the list as it is now, and the body runs for
    it; [false] when the list has no such item, which ends the loop. *)
Definition post_message_turn (l : listeners) (doc : option (gmap string value))
    (i : nat) : M bool :=
  fun st =>
    match items l (ws_manager st) !! i with
    | Some ws => (broadcast_one doc ws;; mret true) st
    | None => (Return false, st)
    end.

(** The turns from index [i] on, with nothing else running between them. *)
Fixpoint post_message_loop (fuel : nat) (l : listeners)
    (doc : option (gmap string value)) (i : nat) : M unit :=
  match fuel with
  | O => mret tt
  | S fuel' =>
      more ← post_message_turn l doc i;
      if more : bool then post_message_loop fuel' l doc (S i) else mret tt
  end.

(** How many turns the loop can take when nothing touches the list. *)
Definition ws_turns (l : listeners) : M nat :=
  fun st => (Return (S (length (items l (ws_manager st)))), st).

(** [post_message], served with nothing else running meanwhile. *)
Definition post_message (ticket_id : string) (msg : MessageSchema.t)
    (now : datetime) (new_id : ObjectId) : M (option (gmap string value)) :=
  '(l, doc) ← post_message_begin ticket_id msg now new_id;
  turns ← ws_turns l;
  post_message_loop turns l doc 0;;
  mret (encode_doc doc).

(** ** main.py: the ticket stream *)

Inductive status := Pending | Returned.

(** One turn of the receive loop of [ticket_ws], from the completion [r] of
    [await websocket.receive_text()] to the next suspension, under the
    [try] that encloses the loop. *)
Definition ticket_ws_turn (websocket : WebSocket) (ticket_id : string)
    (r : result string) : M status :=
  try_except_disconnect
    (data ← lift r;
     send_text websocket (Raw data);;
     mret Pending)
    (ws_disconnect ticket_id websocket;; mret Returned).

Fixpoint ticket_ws_loop (websocket : WebSocket) (ticket_id : string)
    (inbox : list (result string)) : M status :=
  match inbox with
  | [] => mret Pending
  | r :: inbox' =>
      s ← ticket_ws_turn websocket ticket_id r;
      match s with
      | Pending => ticket_ws_loop websocket ticket_id inbox'
      | Returned => mret Returned
      end
  end.

(** [ticket_ws], run on the completions [inbox] of its successive
    [receive_text] calls; [Pending] when it is left waiting for the next. *)
Definition ticket_ws (websocket : WebSocket) (ticket_id : string)
    (accept : result unit) (inbox : list (result string)) : M status :=
  ws_connect ticket_id websocket accept;;
  ticket_ws_loop websocket ticket_id inbox.

(** ** The service as a transition system *)

(** What happens to the service, one handler activation at a time: a stream
    is opened, a pending stream gets the completion of its [receive_text],
    or a request is served; and, for a [post_message] that other activity
    overlaps, its beginning and each turn of its loop ([l] and [doc] being
    what the beginning returned, [i] the index the iterator is at). *)
Inductive event :=
| WsOpen (websocket : WebSocket) (ticket_id : string) (accept : result unit)
| WsReceive (websocket : WebSocket) (ticket_id : string) (r : result string)
| PostMessage (ticket_id : string) (msg : MessageSchema.t)
    (now : datetime) (new_id : ObjectId)
| PatchTicket (ticket_id : string) (payload : TicketUpdate.t) (now : datetime)
| GetTicket (ticket_id : string)
| PublishBegin (ticket_id : string) (msg : MessageSchema.t)
    (now : datetime) (new_id : ObjectId)
| PublishTurn (l : listeners) (doc : option (gmap string value)) (i : nat).

Definition step (st : State) (e : event) : State :=
  match e with
  | WsOpen websocket ticket_id accept =>
      (ws_connect ticket_id websocket accept st).2
  | WsReceive websocket ticket_id r =>
      (ticket_ws_turn websocket ticket_id r st).2
  | PostMessage ticket_id msg now new_id =>
      (post_message ticket_id msg now new_id st).2
  | PatchTicket ticket_id payload now =>
      (update_ticket ticket_id payload now st).2
  | GetTicket ticket_id =>
      (get_ticket ticket_id st).2
  | PublishBegin ticket_id msg now new_id =>
      (post_message_begin ticket_id msg now new_id st).2
  | PublishTurn l doc i =>
      (post_message_turn l doc i st).2
  end.

Definition run (st : State) (evs : list event) : State := foldl step st evs.

(** Other activity, as it comes between the turns of a publish. *)
Definition happen (evs : list event) : M unit := fun st => (Return tt, run st evs).

(** The loop of [post_message] from index [i], with the rest of the service
    running next to it: the events at the head of [meanwhile] happen, then
    the loop takes its next turn; once [meanwhile] is used up the remaining
    turns follow one another. *)
Fixpoint post_message_loop_with (meanwhile : list (list event)) (l : listeners)
    (doc : option (gmap string value)) (i : nat) : M unit :=
  match meanwhile with
  | [] => turns ← ws_turns l; post_message_loop turns l doc i
  | evs :: meanwhile' =>
      happen evs;;
      more ← post_message_turn l doc i;
      if more : bool then post_message_loop_with meanwhile' l doc (S i) else mret tt
  end.

(** [post_message], served while [meanwhile] happens. *)
Definition post_message_with (meanwhile : list (list event)) (ticket_id : string)
    (msg : MessageSchema.t) (now : datetime) (new_id : ObjectId)
    : M (option (gmap string value)) :=
  '(l, doc) ← post_message_begin ticket_id msg now new_id;
  post_message_loop_with meanwhile l doc 0;;
  mret (encode_doc doc).

(** [e] starts a stream of [websocket] on [ticket_id]. *)
Definition opens (websocket : WebSocket) (ticket_id : string) (e : event) : Prop :=
  match e with
  | WsOpen w t _ => w = websocket ∧ t = ticket_id
  | _ => False
  end.

#[global] Instance opens_dec websocket ticket_id e :
  Decision (opens websocket ticket_id e).
Proof. destruct e; simpl; apply _. Defined.

(** ** Vocabulary of the statements *)

(** [e] is a turn of a stream of another ticket than [ticket_id], or a
    request on a ticket: activity that neither subscribes nor unsubscribes
    a listener of [ticket_id], and publishes nothing. *)
Definition elsewhere (ticket_id : string) (e : event) : Prop :=
  match e with
  | WsOpen _ t _ | WsReceive _ t _ => t ≠ ticket_id
  | PatchTicket _ _ _ | GetTicket _ => True
  | PostMessage _ _ _ _ | PublishBegin _ _ _ _ | PublishTurn _ _ _ => False
  end.

#[global] Instance elsewhere_dec ticket_id e : Decision (elsewhere ticket_id e).
Proof. destruct e; simpl; apply _. Defined.

(** The calls of [send_text] that carry a notification (the echo of a
    stream carries the raw text of a frame). *)
Definition notification (a : attempt) : Prop :=
  match data a with
  | Json _ => True
  | Raw _ => False
  end.

#[global] Instance notification_dec a : Decision (notification a).
Proof. unfold notification. destruct (data a); apply _. Defined.



(** How many times [websocket] is registered under [ticket_id]. *)
Definition registrations (self : WSManager) (ticket_id : string)
    (websocket : WebSocket) : nat :=
  length (filter (fun w => w = websocket) (conns self ticket_id)).

(** The calls of [send_text] a publish of [t] makes for the listeners [l],
    the first of them being call number [n] on the wire. *)
Fixpoint publish_attempts (f : nat -> option exn) (n : nat) (t : text)
    (l : list WebSocket) : list attempt :=
  match l with
  | [] => []
  | ws :: l' => Attempt ws t (bool_decide (f n = None)) :: publish_attempts f (S n) t l'
  end.

(** The document [post_message] stores for [msg], and the JSON forms of it
    that leave the service: the response, and the notification. *)
Definition message_doc (msg : MessageSchema.t) (now : datetime) (new_id : ObjectId)
    : gmap string value :=
  <["_id" := VObjectId new_id]>
    (<["created_at" := VDatetime now]> (MessageSchema.model_dump msg)).

Definition message_json (msg : MessageSchema.t) (now : datetime) (new_id : ObjectId)
    : gmap string value :=
  <["ticket_id" := VStr (MessageSchema.ticket_id msg)]>
  (<["id" := VStr (str_ObjectId new_id)]>
  (<["sender_email" := VStr (MessageSchema.sender_email msg)]>
  (<["content" := VStr (MessageSchema.content msg)]>
  (<["type" := VStr (MessageSchema.type_str (MessageSchema.type msg))]>
  (<["created_at" := VStr (isoformat now)]> ∅))))).

Definition new_message_event (msg : MessageSchema.t) (now : datetime)
    (new_id : ObjectId) : gmap string value :=
  <["event" := VStr "new_message"]> (message_json msg now new_id).

(** The write of [post_message] goes through: the driver drew a 12-byte
    identifier that the collection does not hold yet. *)
Definition can_insert (name : string) (new_id : ObjectId) (st : State) : Prop :=
  new_id < 2 ^ 96 ∧ collection name st !! new_id = None.

(** The payload of a PATCH sets at least one field. *)
Definition sets_a_field (payload : TicketUpdate.t) : Prop :=
  ∃ k v, TicketUpdate.model_dump payload !! k = Some v ∧ v ≠ VNone.

(** Subscribe and Unsubscribe on one ticket, and the bookkeeping the
    specification compares the registry with. *)
Inductive op :=
| Subscribe (websocket : WebSocket)
| Unsubscribe (websocket : WebSocket).

Definition apply_op (ticket_id : string) (self : WSManager) (o : op) : WSManager :=
  match o with
  | Subscribe websocket => (connect self ticket_id websocket (Return tt)).2
  | Unsubscribe websocket => disconnect self ticket_id websocket
  end.

Definition track_set (X : gset nat) (o : op) : gset nat :=
  match o with
  | Subscribe websocket => {[websocket]} ∪ X
  | Unsubscribe websocket => X ∖ {[websocket]}
  end.

Definition track_multiset (X : gmultiset nat) (o : op) : gmultiset nat :=
  match o with
  | Subscribe websocket => X ⊎ {[+ websocket +]}
  | Unsubscribe websocket => X ∖ {[+ websocket +]}
  end.

(** No handle is subscribed while the bookkeeping holds it. *)
Fixpoint subscribes_fresh (X : gset nat) (ops : list op) : Prop :=
  match ops with
  | [] => True
  | o :: ops' =>
      match o with
      | Subscribe websocket => websocket ∉ X
      | Unsubscribe _ => True
      end ∧ subscribes_fresh (track_set X o) ops'
  end.

(** Documents are written and rewritten, never removed. *)
Definition db_grows (st st' : State) : Prop :=
  db st' = db st ∨
  ∃ name k v, db st' = <[name := <[k := v]> (collection name st)]> (db st).


(** Unfolding of the monad. *)
Ltac unfold_M :=
  unfold mbind, mret, M_bind, M_ret, bind, ret, raise, lift, try_pass,
    try_except_disconnect in *.

(** ** Sample data *)

(** A registry with three listeners on ticket "T1", and a transport that
    faults on its second call. *)
Definition hello : MessageSchema.t :=
  MessageSchema.mk "T1" "a@x.com" "hello" MessageSchema.text.
Definition noon : datetime := Datetime "2024-05-01T12:00:00".
Definition three_listeners : State :=
  mkState ∅ (mkWSManager {["T1" := [1; 2; 3]%nat]}) []
    (fun n => if decide (n = 1%nat) then Some (RuntimeError "closed") else None).


(** The service at start-up, and a patch that closes a ticket. *)
Definition empty_service : State := mkState ∅ (mkWSManager ∅) [] (fun _ => None).
Definition close_it : TicketUpdate.t :=
  TicketUpdate.mk None None (Some "closed") None None.

Definition goodbye : MessageSchema.t :=
  MessageSchema.mk "T1" "a@x.com" "goodbye" MessageSchema.text.

(** ** main.py: creating a ticket *)

Module TicketSchema.
Inductive Status := open | pending | resolved | closed.
Inductive Priority := low | medium | high.
Record t := mk {
  title : string;
  description : string;
  status : Status;
  priority : Priority;
  customer_email : string;
  assigned_to : option string
}.
Definition status_str (s : Status) : string :=
  match s with
  | open => "open" | pending => "pending"
  | resolved => "resolved" | closed => "closed"
  end.
Definition priority_str (p : Priority) : string :=
  match p with low => "low" | medium => "medium" | high => "high" end.
(** [ticket.model_dump()] *)
Definition model_dump (ticket : t) : dict :=
  <["title" := VStr (title ticket)]>
  (<["description" := VStr (description ticket)]>
  (<["status" := VStr (status_str (status ticket))]>
  (<["priority" := VStr (priority_str (priority ticket))]>
  (<["customer_email" := VStr (customer_email ticket)]>
  (<["assigned_to" := TicketUpdate.field (assigned_to ticket)]> ∅))))).
End TicketSchema.

(** [ObjectId(s)], outside [oid]: the driver's own error. *)
Definition ObjectId_new (s : string) : result ObjectId :=
  match ObjectId_of_str s with
  | Some o => Return o
  | None => Raise InvalidId
  end.

Definition create_ticket (ticket : TicketSchema.t) (now : datetime)
    (new_id : ObjectId) : M (option (gmap string value)) :=
  _id ← create_document "ticket" (TicketSchema.model_dump ticket) now new_id;
  o ← lift (ObjectId_new _id);
  doc ← find_one "ticket" o;
  mret (encode_doc doc).

(** A ticket as [create_document] stores it. *)
Definition ticket_doc (ticket : TicketSchema.t) (now : datetime) (new_id : ObjectId)
    : gmap string value :=
  <["_id" := VObjectId new_id]>
    (<["created_at" := VDatetime now]> (TicketSchema.model_dump ticket)).

(** The fields a PATCH sets, as the store keeps them: those of the payload
    that are not [None], and the time of the update. *)
Definition patch_updates (payload : TicketUpdate.t) (now : datetime)
    : gmap string value :=
  bson_value <$>
    <["updated_at" := VDatetime now]>
      (filter (fun kv => kv.2 ≠ VNone) (TicketUpdate.model_dump payload)).

Definition demo_ticket : TicketSchema.t :=
  TicketSchema.mk "Demo issue" "My app is not loading." TicketSchema.open
    TicketSchema.high "customer@example.com" None.

(** The service after the demo ticket has been created, at a later time. *)
Definition one_ticket : State := (create_ticket demo_ticket noon 1 empty_service).2.
Definition later : datetime := Datetime "2024-05-02T09:30:00".
(** A reading of [datetime.now(timezone.utc)]. *)
Definition utc_now : datetime := Datetime "2024-05-02T09:30:00.123456+00:00".
Definition no_change : TicketUpdate.t := TicketUpdate.mk None None None None None.

(** ** main.py: registration and login *)

(** [db[name].find_one(query)] with a query of field values: a document
    that has every field of the query with the value asked for, the first
    such in the order the collection is read ([None] when there is none). *)
Definition matches (query doc : gmap string value) : Prop :=
  map_Forall (fun k v => doc !! k = Some v) query.

#[global] Instance matches_dec query doc : Decision (matches query doc).
Proof. unfold matches. apply _. Defined.

Definition find_one_by (name : string) (query : gmap string value)
    : M (option (gmap string value)) :=
  fun st =>
    (Return ((fun r => r.2.2) <$>
               list_find (fun kv => matches query kv.2)
                 (map_to_list (collection name st))),
     st).

Module UserSchema.
Inductive Role := customer | agent | admin.
Record t := mk {
  name : string;
  email : string;
  password_hash : string;
  role : Role;
  is_active : bool
}.
Definition role_str (r : Role) : string :=
  match r with customer => "customer" | agent => "agent" | admin => "admin" end.
(** [user.model_dump()] *)
Definition model_dump (user : t) : dict :=
  <["name" := VStr (name user)]>
  (<["email" := VStr (email user)]>
  (<["password_hash" := VStr (password_hash user)]>
  (<["role" := VStr (role_str (role user))]>
  (<["is_active" := VBool (is_active user)]> ∅)))).
End UserSchema.

Module RegisterPayload.
(** [role] is optional: [None] is an explicit [null] in the request. *)
Record t := mk {
  name : string;
  email : string;
  password_hash : string;
  role : option UserSchema.Role
}.
End RegisterPayload.

Definition register (payload : RegisterPayload.t) (now : datetime)
    (new_id : ObjectId) : M (option (gmap string value)) :=
  existing ← find_one_by "user" {["email" := VStr (RegisterPayload.email payload)]};
  if decide (existing ≠ None ∧ existing ≠ Some ∅)
  then raise (HTTPException 409 "Email already registered")
  else
    user ← lift (match RegisterPayload.role payload with
                 | Some r =>
                     Return (UserSchema.mk (RegisterPayload.name payload)
                               (RegisterPayload.email payload)
                               (RegisterPayload.password_hash payload) r true)
                 | None => Raise (RuntimeError "ValidationError: role")
                 end);
    user_id ← create_document "user" (UserSchema.model_dump user) now new_id;
    o ← lift (ObjectId_new user_id);
    doc ← find_one "user" o;
    mret (encode_doc doc).

Module LoginPayload.
Record t := mk { email : string; password_hash : string }.
End LoginPayload.

(** [str(v)], as an f-string prints a value; [str] of a [datetime] is its
    [isoformat] with a space for the ["T"]. *)
Fixpoint T_to_space (s : string) : string :=
  match s with
  | EmptyString => EmptyString
  | String c s' =>
      String (if Ascii.eqb c "T"%char then " "%char else c) (T_to_space s')
  end.

Definition py_str (v : value) : string :=
  match v with
  | VNone => "None"
  | VBool true => "True"
  | VBool false => "False"
  | VStr s => s
  | VObjectId o => str_ObjectId o
  | VDatetime d => T_to_space (isoformat d)
  end.

(** The answer of [login]: [{"user": ..., "token": ...}]. *)
Record LoginResponse := mkLoginResponse {
  user : option (gmap string value);
  token : string
}.

Definition login (payload : LoginPayload.t) : M LoginResponse :=
  found ← find_one_by "user"
            (<["email" := VStr (LoginPayload.email payload)]>
             (<["password_hash" := VStr (LoginPayload.password_hash payload)]>
             (<["is_active" := VBool true]> ∅)));
  match found with
  | None => raise (HTTPException 401 "Invalid credentials")
  | Some u =>
      if decide (u = ∅) then raise (HTTPException 401 "Invalid credentials")
      else
        match u !! "email" with
        | Some e => mret (mkLoginResponse (encode_doc found) ("demo-" ++ py_str e)%string)
        | None => raise (RuntimeError "KeyError: 'email'")
        end
  end.


(** The user [register] stores. *)
Definition user_doc (payload : RegisterPayload.t) (r : UserSchema.Role)
    (now : datetime) (new_id : ObjectId) : gmap string value :=
  <["_id" := VObjectId new_id]>
    (<["created_at" := VDatetime now]>
       (UserSchema.model_dump
          (UserSchema.mk (RegisterPayload.name payload) (RegisterPayload.email payload)
             (RegisterPayload.password_hash payload) r true))).

Definition alice : RegisterPayload.t :=
  RegisterPayload.mk "Alice" "alice@example.com" "5e884898" (Some UserSchema.agent).

(** ** Vocabulary for streams *)

(** What a stream may have done to the state [st] when it is in [st']:
    echoed some of the texts of [inbox] to its own connection, and perhaps
    unsubscribed. *)
Definition stream_effect (websocket : nat) (ticket_id : string)
    (inbox : list (result string)) (r : result status) (st st' : State) : Prop :=
  db st' = db st ∧ fault st' = fault st ∧
  (∃ new, wire st' = wire st ++ new ∧
          (length new ≤ length inbox)%nat ∧
          Forall (fun a => to a = websocket ∧
                           ∃ s, data a = Raw s ∧ Return s ∈ inbox) new) ∧
  match r with
  | Return Returned =>
      ws_manager st' = disconnect (ws_manager st) ticket_id websocket
  | _ => ws_manager st' = ws_manager st
  end.

(** * Properties *)

(** *** Identifiers: [str] and [ObjectId] are inverse on 12-byte values *)

Lemma hex_val_digit d : d < 16 → hex_val (hex_digit d) = Some d.
Proof.
  intros Hd.
  assert (Hcases : d ∈ (N.of_nat <$> seq 0 16)).
  { apply list_elem_of_fmap. exists (N.to_nat d). split; [lia|].
    apply elem_of_seq. lia. }
  cbn in Hcases.
  repeat (apply elem_of_cons in Hcases as [->|Hcases]; [reflexivity|]).
  by apply elem_of_nil in Hcases.
Qed.

Lemma length_hex_render n v acc :
  String.length (hex_render n v acc) = (n + String.length acc)%nat.
Proof.
  revert v acc. induction n as [|n IH]; intros v acc; simpl; [done|].
  rewrite IH. simpl. lia.
Qed.

Lemma is_space_digit d : d < 16 → is_space (hex_digit d) = false.
Proof.
  intros Hd.
  assert (Hcases : d ∈ (N.of_nat <$> seq 0 16)).
  { apply list_elem_of_fmap. exists (N.to_nat d). split; [lia|].
    apply elem_of_seq. lia. }
  cbn in Hcases.
  repeat (apply elem_of_cons in Hcases as [->|Hcases]; [reflexivity|]).
  by apply elem_of_nil in Hcases.
Qed.

Lemma hex_render_byte m v acc :
  hex_render (S (S m)) v acc =
  hex_render m (v / 256)
    (String (hex_digit ((v / 16) mod 16)) (String (hex_digit (v mod 16)) acc)).
Proof.
  simpl. rewrite N.Div0.div_div. reflexivity.
Qed.

Lemma fromhex_hex_render n v acc a c :
  v < 256 ^ N.of_nat n →
  fromhex (hex_render (2 * n) v acc) None a c =
  fromhex acc None (a * 256 ^ N.of_nat n + v) (c + n).
Proof.
  revert v acc a c. induction n as [|n IH]; intros v acc a c Hv.
  - simpl in *. f_equal; lia.
  - rewrite Nat2N.inj_succ, N.pow_succ_r' in Hv.
    replace (2 * S n)%nat with (S (S (2 * n))) by lia.
    rewrite hex_render_byte, IH.
    2:{ apply N.Div0.div_lt_upper_bound; lia. }
    assert (v mod 16 < 16) as H0 by (apply N.mod_lt; lia).
    assert ((v / 16) mod 16 < 16) as H1 by (apply N.mod_lt; lia).
    cbn [fromhex]. rewrite (is_space_digit _ H1), (hex_val_digit _ H1).
    rewrite (hex_val_digit _ H0). f_equal; [|lia].
    rewrite Nat2N.inj_succ, N.pow_succ_r'.
    pose proof (N.div_mod v 16 ltac:(lia)).
    pose proof (N.div_mod (v / 16) 16 ltac:(lia)).
    assert (v / 256 = v / 16 / 16) as -> by (by rewrite N.Div0.div_div).
    lia.
Qed.

Lemma ObjectId_of_str_str (o : N) :
  o < 2 ^ 96 → ObjectId_of_str (str_ObjectId o) = Some o.
Proof.
  intros Ho. unfold ObjectId_of_str, str_ObjectId.
  apply N.ltb_lt in Ho as Hb. rewrite Hb.
  rewrite length_hex_render. simpl Nat.eqb. cbv iota.
  change 24%nat with (2 * 12)%nat.
  rewrite fromhex_hex_render by (change (256 ^ N.of_nat 12) with (2 ^ 96); done).
  cbn [fromhex]. unfold ObjectId_of_bytes. simpl Nat.eqb. cbv iota.
  f_equal; lia.
Qed.

(** *** Encoding of documents *)

Lemma encode_message_doc msg now new_id :
  encode_doc (Some (message_doc msg now new_id)) = Some (message_json msg now new_id).
Proof. destruct msg. reflexivity. Qed.

Lemma encode_value_json v : json_value (encode_value v) = true.
Proof. by destruct v. Qed.

Lemma encode_doc_json doc d :
  encode_doc doc = Some d → json_serializable d.
Proof.
  destruct doc as [d0|]; [|done]. simpl.
  case_decide as He.
  - intros [= <-]. subst d0. apply map_Forall_empty.
  - intros [= <-]. intros k v. rewrite lookup_fmap.
    intros (v' & _ & ->)%fmap_Some. apply encode_value_json.
Qed.

Lemma json_dumps_event p :
  json_serializable p →
  json_dumps (<["event" := VStr "new_message"]> p) =
  Return (Json (<["event" := VStr "new_message"]> p)).
Proof.
  intros Hp. unfold json_dumps. case_decide as H; [done|].
  destruct H. by apply map_Forall_insert_2.
Qed.

(** *** The broadcast loop *)

Lemma broadcast_one_spec doc p ws st :
  encode_doc doc = Some p →
  broadcast_one doc ws st =
  (Return tt,
   set_wire (fun w => w ++ [Attempt ws (Json (<["event" := VStr "new_message"]> p))
                              (bool_decide (fault st (length w) = None))]) st).
Proof.
  intros Hp. unfold broadcast_one, safe_send. rewrite Hp.
  unfold_M. rewrite json_dumps_event by eauto using encode_doc_json.
  unfold send_text, set_wire. destruct (fault st (length (wire st))) eqn:Hf; done.
Qed.

Lemma broadcast_one_skip doc ws st :
  encode_doc doc = None → broadcast_one doc ws st = (Return tt, st).
Proof. intros Hp. unfold broadcast_one. rewrite Hp. reflexivity. Qed.

(** A turn of the loop, by what the list holds at the iterator's index. *)
Lemma post_message_turn_spec l doc i st :
  post_message_turn l doc i st =
  match items l (ws_manager st) !! i with
  | Some ws =>
      (Return true,
       match encode_doc doc with
       | Some p =>
           set_wire (fun w => w ++ [Attempt ws (Json (<["event" := VStr "new_message"]> p))
                                      (bool_decide (fault st (length w) = None))]) st
       | None => st
       end)
  | None => (Return false, st)
  end.
Proof.
  unfold post_message_turn. destruct (items l (ws_manager st) !! i) as [ws|]; [|done].
  unfold_M. destruct (encode_doc doc) as [p|] eqn:Hp.
  - by rewrite (broadcast_one_spec _ _ _ _ Hp).
  - by rewrite (broadcast_one_skip _ _ _ Hp).
Qed.

(** The turns that nothing interrupts walk the rest of the list, and end
    because the iterator is exhausted. *)
Lemma broadcast_spec fuel l doc i st :
  (length (items l (ws_manager st)) - i < fuel)%nat →
  post_message_loop fuel l doc i st =
  (Return tt,
   match encode_doc doc with
   | Some p =>
       set_wire (fun w => w ++ publish_attempts (fault st) (length w)
                                 (Json (<["event" := VStr "new_message"]> p))
                                 (drop i (items l (ws_manager st)))) st
   | None => st
   end).
Proof.
  revert i st. induction fuel as [|fuel IH]; intros i st Hfuel; [lia|].
  cbn [post_message_loop]. unfold mbind, M_bind, bind.
  rewrite post_message_turn_spec.
  destruct (items l (ws_manager st) !! i) as [ws|] eqn:Hi.
  - pose proof (lookup_lt_Some _ _ _ Hi) as Hlt.
    rewrite (drop_S _ _ _ Hi).
    destruct (encode_doc doc) as [p|] eqn:Hp.
    + rewrite IH by (simpl; lia). rewrite ?Hp.
      destruct st. unfold set_wire. simpl. do 2 f_equal.
      rewrite length_app, <- app_assoc. simpl. by rewrite Nat.add_1_r.
    + rewrite IH by lia. by rewrite ?Hp.
  - apply lookup_ge_None_1 in Hi. rewrite drop_ge by done.
    unfold mret, M_ret, ret. destruct (encode_doc doc); [|done].
    destruct st. unfold set_wire. simpl. by rewrite app_nil_r.
Qed.

Lemma collection_insert name c d wm w f :
  collection name (mkState (<[name := c]> d) wm w f) = c.
Proof. unfold collection. simpl. by rewrite lookup_insert_eq. Qed.

Lemma items_ws_get self ticket_id :
  items match active_connections self !! ticket_id with
        | Some _ => Registered ticket_id
        | None => Unregistered
        end self = conns self ticket_id.
Proof.
  destruct (active_connections self !! ticket_id) eqn:Hl; simpl;
    unfold conns; by rewrite Hl.
Qed.

(** The beginning of [post_message], outcome by outcome. *)
Lemma post_message_begin_spec ticket_id msg now new_id st :
  post_message_begin ticket_id msg now new_id st =
  if decide (MessageSchema.ticket_id msg ≠ ticket_id)
  then (Raise (HTTPException 400 "ticket_id mismatch"), st)
  else
    match collection "message" st !! new_id with
    | Some _ => (Raise DuplicateKeyError, st)
    | None =>
        let st' :=
          set_db (fun d => <["message" := <[new_id := message_doc msg now new_id]>
                                            (collection "message" st)]> d) st in
        match ObjectId_of_str (str_ObjectId new_id) with
        | Some o =>
            (Return (match active_connections (ws_manager st) !! ticket_id with
                     | Some _ => Registered ticket_id
                     | None => Unregistered
                     end, collection "message" st' !! o), st')
        | None => (Raise InvalidId, st')
        end
    end.
Proof.
  unfold post_message_begin. case_decide as Ht; [reflexivity|].
  unfold create_document, insert_one, find_one, ws_get. unfold_M.
  destruct (collection "message" st !! new_id); [reflexivity|].
  fold (message_doc msg now new_id).
  destruct (ObjectId_of_str _) as [o|]; reflexivity.
Qed.

Lemma post_message_begin_frame ticket_id msg now new_id st :
  let st' := (post_message_begin ticket_id msg now new_id st).2 in
  ws_manager st' = ws_manager st ∧ fault st' = fault st ∧ wire st' = wire st.
Proof.
  rewrite post_message_begin_spec. case_decide; [simpl; split_and!; reflexivity|].
  destruct (collection "message" st !! new_id); [simpl; split_and!; reflexivity|].
  cbv zeta. destruct (ObjectId_of_str _); simpl; split_and!; reflexivity.
Qed.

Lemma post_message_begin_listeners ticket_id msg now new_id st l doc :
  (post_message_begin ticket_id msg now new_id st).1 = Return (l, doc) →
  ∀ self, items l self = [] ∨ items l self = conns self ticket_id.
Proof.
  rewrite post_message_begin_spec. case_decide; [discriminate|].
  destruct (collection "message" st !! new_id); [discriminate|].
  cbv zeta. destruct (ObjectId_of_str _); [|discriminate].
  cbn [fst]. intros Heq self.
  assert (l = match active_connections (ws_manager st) !! ticket_id with
              | Some _ => Registered ticket_id
              | None => Unregistered
              end) as -> by congruence.
  destruct (active_connections (ws_manager st) !! ticket_id); [by right|by left].
Qed.

Lemma post_message_begin_db ticket_id msg now new_id st :
  db_grows st (post_message_begin ticket_id msg now new_id st).2.
Proof.
  rewrite post_message_begin_spec. case_decide; [by left|].
  destruct (collection "message" st !! new_id); [by left|].
  cbv zeta. destruct (ObjectId_of_str _); right; by eexists _, _, _.
Qed.

(** [post_message] with nothing else running: the beginning, then the calls
    for the listeners the registry holds. *)
Lemma post_message_alone ticket_id msg now new_id st :
  post_message ticket_id msg now new_id st =
  match post_message_begin ticket_id msg now new_id st with
  | (Return (l, doc), s) =>
      (Return (encode_doc doc),
       match encode_doc doc with
       | Some p =>
           set_wire (fun w => w ++ publish_attempts (fault s) (length w)
                                     (Json (<["event" := VStr "new_message"]> p))
                                     (items l (ws_manager s))) s
       | None => s
       end)
  | (Raise e, s) => (Raise e, s)
  end.
Proof.
  unfold post_message. unfold mbind at 1. unfold M_bind, bind.
  destruct (post_message_begin ticket_id msg now new_id st) as [[[l doc]|e] s];
    [|reflexivity].
  unfold ws_turns. unfold_M. rewrite broadcast_spec by lia.
  by rewrite drop_0.
Qed.

Lemma post_message_ok ticket_id msg now new_id st :
  MessageSchema.ticket_id msg = ticket_id →
  can_insert "message" new_id st →
  post_message ticket_id msg now new_id st =
  (Return (Some (message_json msg now new_id)),
   mkState
     (<["message" := <[new_id := message_doc msg now new_id]>
                       (collection "message" st)]> (db st))
     (ws_manager st)
     (wire st ++ publish_attempts (fault st) (length (wire st))
                   (Json (new_message_event msg now new_id))
                   (conns (ws_manager st) ticket_id))
     (fault st)).
Proof.
  intros Ht [Hid Hfresh]. rewrite post_message_alone, post_message_begin_spec.
  rewrite decide_False by (by intros []).
  rewrite Hfresh. cbv zeta. rewrite ObjectId_of_str_str by done.
  unfold set_db. rewrite !collection_insert, lookup_insert_eq.
  rewrite encode_message_doc. cbn [ws_manager]. rewrite items_ws_get.
  reflexivity.
Qed.

(** *** The registry *)

Lemma conns_connect_eq self ticket_id websocket :
  conns (connect self ticket_id websocket (Return tt)).2 ticket_id =
  conns self ticket_id ++ [websocket].
Proof. unfold conns at 1. simpl. by rewrite lookup_insert_eq. Qed.

Lemma conns_connect_ne self ticket_id websocket accept t :
  t ≠ ticket_id →
  conns (connect self ticket_id websocket accept).2 t = conns self t.
Proof.
  intros Hne. destruct accept; [|done]. unfold conns at 1. simpl.
  by rewrite lookup_insert_ne.
Qed.

Lemma conns_connect_refused self ticket_id websocket e :
  connect self ticket_id websocket (Raise e) = (Raise e, self).
Proof. done. Qed.

Lemma list_remove_absent x l : x ∉ l → list_remove x l = l.
Proof.
  induction l as [|y l IH]; [done|]. intros [Hxy Hl]%not_elem_of_cons. simpl.
  rewrite decide_False by done. by rewrite IH.
Qed.

Lemma conns_disconnect_eq self ticket_id websocket :
  conns (disconnect self ticket_id websocket) ticket_id =
  list_remove websocket (conns self ticket_id).
Proof.
  unfold disconnect. case_decide as Hin.
  - unfold conns at 1. simpl. by rewrite lookup_insert_eq.
  - by rewrite list_remove_absent.
Qed.

Lemma conns_disconnect_ne self ticket_id websocket t :
  t ≠ ticket_id → conns (disconnect self ticket_id websocket) t = conns self t.
Proof.
  intros Hne. unfold disconnect. case_decide; [|done]. unfold conns at 1. simpl.
  by rewrite lookup_insert_ne.
Qed.

Lemma disconnect_absent self ticket_id websocket :
  websocket ∉ conns self ticket_id → disconnect self ticket_id websocket = self.
Proof. intros Hin. unfold disconnect. by rewrite decide_False. Qed.

Lemma filter_list_remove_eq x l :
  length (filter (fun w => w = x) (list_remove x l)) =
  pred (length (filter (fun w => w = x) l)).
Proof.
  induction l as [|y l IH]; [done|]. simpl. case_decide as Hxy.
  - subst y. by rewrite filter_cons_True.
  - rewrite !filter_cons_False by done. done.
Qed.

Lemma filter_list_remove_ne x y l :
  x ≠ y → filter (fun w => w = y) (list_remove x l) = filter (fun w => w = y) l.
Proof.
  intros Hne. induction l as [|z l IH]; [done|]. simpl. case_decide as Hxz.
  - subst z. by rewrite filter_cons_False.
  - rewrite !filter_cons. by rewrite IH.
Qed.

Lemma registrations_pos self ticket_id websocket :
  websocket ∈ conns self ticket_id ↔ (0 < registrations self ticket_id websocket)%nat.
Proof.
  unfold registrations. split.
  - intros Hin. assert (websocket ∈ filter (λ w, w = websocket) (conns self ticket_id))
      as Hf by by apply list_elem_of_filter.
    destruct (filter _ _); [by apply elem_of_nil in Hf|simpl; lia].
  - intros Hlen. destruct (filter _ _) as [|w l] eqn:Hf; [simpl in Hlen; lia|].
    assert (w ∈ filter (λ w, w = websocket) (conns self ticket_id)) as Hw
      by (rewrite Hf; left).
    apply list_elem_of_filter in Hw as [-> ?]. done.
Qed.

Lemma registrations_connect self ticket_id websocket w :
  registrations (connect self ticket_id websocket (Return tt)).2 ticket_id w =
  (registrations self ticket_id w + if decide (websocket = w) then 1 else 0)%nat.
Proof.
  unfold registrations. rewrite conns_connect_eq, list.filter_app, length_app.
  f_equal. rewrite filter_cons, filter_nil. by repeat case_decide.
Qed.

Lemma registrations_disconnect self ticket_id websocket w :
  registrations (disconnect self ticket_id websocket) ticket_id w =
  (registrations self ticket_id w - if decide (websocket = w) then 1 else 0)%nat.
Proof.
  unfold registrations. rewrite conns_disconnect_eq. case_decide as Hw.
  - subst w. rewrite filter_list_remove_eq. lia.
  - rewrite filter_list_remove_ne by done. lia.
Qed.

Lemma list_to_set_disj_list_remove x (l : list nat) :
  list_to_set_disj (list_remove x l) =@{gmultiset nat}
  list_to_set_disj l ∖ {[+ x +]}.
Proof.
  induction l as [|y l IH]; simpl.
  - multiset_solver.
  - case_decide as Hxy.
    + subst y. multiset_solver.
    + simpl. rewrite IH. apply gmultiset_eq. intros z.
      rewrite !multiplicity_difference, !multiplicity_disj_union,
        !multiplicity_difference, !multiplicity_singleton.
      repeat case_decide; subst; try done; lia.
Qed.

Lemma NoDup_list_remove x (l : list nat) : NoDup l → NoDup (list_remove x l).
Proof.
  induction 1 as [|y l Hy Hl IH]; simpl; [constructor|].
  case_decide; [done|]. constructor; [|done].
  intros Hin. apply Hy. clear -Hin. induction l as [|z l IH]; [done|].
  simpl in Hin. case_decide; [by right|].
  apply elem_of_cons in Hin as [->|Hin]; [left|right; auto].
Qed.

Lemma list_to_set_list_remove x (l : list nat) :
  NoDup l → list_to_set (list_remove x l) =@{gset nat} list_to_set l ∖ {[x]}.
Proof.
  induction 1 as [|y l Hy Hl IH]; simpl; [set_solver|].
  case_decide as Hxy.
  - subst y. set_solver.
  - simpl. rewrite IH. set_solver.
Qed.

(** *** What each handler does to the state *)

Lemma ws_connect_spec ticket_id websocket accept st :
  ws_connect ticket_id websocket accept st =
  ((connect (ws_manager st) ticket_id websocket accept).1,
   mkState (db st) (connect (ws_manager st) ticket_id websocket accept).2
     (wire st) (fault st)).
Proof. unfold ws_connect. by destruct (connect _ _ _ _). Qed.

Lemma ticket_ws_turn_text websocket ticket_id s st :
  ticket_ws_turn websocket ticket_id (Return s) st =
  match fault st (length (wire st)) with
  | None =>
      (Return Pending,
       mkState (db st) (ws_manager st)
         (wire st ++ [Attempt websocket (Raw s) true]) (fault st))
  | Some (WebSocketDisconnect _) =>
      (Return Returned,
       mkState (db st) (disconnect (ws_manager st) ticket_id websocket)
         (wire st ++ [Attempt websocket (Raw s) false]) (fault st))
  | Some e =>
      (Raise e,
       mkState (db st) (ws_manager st)
         (wire st ++ [Attempt websocket (Raw s) false]) (fault st))
  end.
Proof.
  unfold ticket_ws_turn, send_text, ws_disconnect. unfold_M.
  destruct (fault st (length (wire st))) as [[]|]; done.
Qed.

Lemma ticket_ws_turn_disconnect websocket ticket_id code st :
  ticket_ws_turn websocket ticket_id (Raise (WebSocketDisconnect code)) st =
  (Return Returned,
   mkState (db st) (disconnect (ws_manager st) ticket_id websocket)
     (wire st) (fault st)).
Proof. done. Qed.

Lemma ticket_ws_turn_error websocket ticket_id e st :
  (∀ code, e ≠ WebSocketDisconnect code) →
  ticket_ws_turn websocket ticket_id (Raise e) st = (Raise e, st).
Proof. intros He. destruct e; try done. by destruct (He code). Qed.

Lemma fmap_to_publish_attempts f n t l : to <$> publish_attempts f n t l = l.
Proof. revert n. induction l as [|w l IH]; intros n; simpl; [done|]. by rewrite IH. Qed.

Lemma lookup_publish_attempts f n t l i :
  publish_attempts f n t l !! i =
  (fun w => Attempt w t (bool_decide (f (n + i)%nat = None))) <$> l !! i.
Proof.
  revert n i. induction l as [|w l IH]; intros n [|i]; simpl; [done..| |].
  - by rewrite Nat.add_0_r.
  - rewrite IH. by rewrite Nat.add_succ_r.
Qed.

Lemma data_publish_attempts f n t l a : a ∈ publish_attempts f n t l → data a = t.
Proof.
  intros (i & Hi)%list_elem_of_lookup. rewrite lookup_publish_attempts in Hi.
  by apply fmap_Some in Hi as (w & _ & ->).
Qed.

(** A turn leaves the registry alone and adds to the wire at most one call,
    addressed to the item the list holds at the iterator's index. *)
Lemma post_message_turn_frame l doc i st :
  let st' := (post_message_turn l doc i st).2 in
  ws_manager st' = ws_manager st ∧ fault st' = fault st ∧ db st' = db st ∧
  ∃ new, wire st' = wire st ++ new ∧
         Forall (fun a => items l (ws_manager st) !! i = Some (to a)) new.
Proof.
  assert (Hnil : ∃ new, wire st = wire st ++ new ∧
            Forall (fun a => items l (ws_manager st) !! i = Some (to a)) new)
    by (exists []; by rewrite app_nil_r).
  rewrite post_message_turn_spec.
  destruct (items l (ws_manager st) !! i) as [ws|]; [|by simpl].
  destruct (encode_doc doc); [|by simpl].
  simpl. split_and!; [done..|]. eexists. split; [done|]. by repeat constructor.
Qed.

(** Whatever the write did, [post_message] leaves the registry alone and
    only adds to the wire calls addressed to listeners of its ticket. *)
Lemma post_message_frame ticket_id msg now new_id st :
  let st' := (post_message ticket_id msg now new_id st).2 in
  ws_manager st' = ws_manager st ∧ fault st' = fault st ∧
  ∃ new, wire st' = wire st ++ new ∧
         Forall (fun a => to a ∈ conns (ws_manager st) ticket_id) new.
Proof.
  assert (Hnil : ∀ s : State, ∃ new, wire s = wire s ++ new ∧
            Forall (fun a => to a ∈ conns (ws_manager st) ticket_id) new)
    by (intros s; exists []; by rewrite app_nil_r).
  rewrite post_message_alone.
  pose proof (post_message_begin_frame ticket_id msg now new_id st) as (Hm & Hf & Hw).
  pose proof (post_message_begin_listeners ticket_id msg now new_id st) as Hl.
  destruct (post_message_begin ticket_id msg now new_id st) as [[[l doc]|e] s];
    cbn [fst snd] in *; [|rewrite Hm, Hf, <- Hw; by split_and!].
  specialize (Hl l doc eq_refl (ws_manager s)).
  destruct (encode_doc doc) as [p|]; [|rewrite Hm, Hf, <- Hw; by split_and!].
  simpl. rewrite Hw. split_and!; [done..|]. eexists. split; [done|].
  apply list.Forall_forall. intros a Ha.
  apply (list_elem_of_fmap_2 to) in Ha. rewrite fmap_to_publish_attempts in Ha.
  destruct Hl as [Hl|Hl]; rewrite Hl in Ha; [by apply elem_of_nil in Ha|].
  by rewrite <- Hm.
Qed.

Lemma update_ticket_frame ticket_id payload now st :
  let st' := (update_ticket ticket_id payload now st).2 in
  ws_manager st' = ws_manager st ∧ fault st' = fault st ∧ wire st' = wire st.
Proof.
  unfold update_ticket. case_decide; [simpl; split_and!; reflexivity|].
  unfold update_one, find_one. unfold_M. destruct (oid ticket_id); [|done].
  destruct (collection "ticket" st !! a); simpl; done.
Qed.

Lemma get_ticket_frame ticket_id st : (get_ticket ticket_id st).2 = st.
Proof.
  unfold get_ticket, find_one. unfold_M. destruct (oid ticket_id); [|done].
  destruct (collection "ticket" st !! a); [|done]. by case_decide.
Qed.

Lemma db_grows_lookup st st' name o :
  db_grows st st' →
  is_Some (collection name st !! o) → is_Some (collection name st' !! o).
Proof.
  unfold collection. intros [->|(n & k & v & ->)]; [done|].
  destruct (decide (name = n)) as [->|Hn].
  - rewrite lookup_insert_eq. simpl. fold (collection n st).
    destruct (decide (k = o)) as [->|Hk].
    + by rewrite lookup_insert_eq.
    + by rewrite lookup_insert_ne.
  - by rewrite lookup_insert_ne.
Qed.

Lemma post_message_db ticket_id msg now new_id st :
  db_grows st (post_message ticket_id msg now new_id st).2.
Proof.
  rewrite post_message_alone.
  pose proof (post_message_begin_db ticket_id msg now new_id st) as Hdb.
  destruct (post_message_begin ticket_id msg now new_id st) as [[[l doc]|e] s];
    cbn [snd] in *; [|done].
  by destruct (encode_doc doc).
Qed.

Lemma update_ticket_db ticket_id payload now st :
  db_grows st (update_ticket ticket_id payload now st).2.
Proof.
  unfold update_ticket. case_decide; [by left|].
  unfold update_one, find_one. unfold_M. destruct (oid ticket_id); [|by left].
  destruct (collection "ticket" st !! a); simpl; [|by left].
  right. by eexists _, _, _.
Qed.

(** *** Steps of the service *)



Lemma step_db st e : db_grows st (step st e).
Proof.
  destruct e; simpl.
  - rewrite ws_connect_spec. by left.
  - destruct r as [s|e].
    + rewrite ticket_ws_turn_text. destruct (fault st _) as [[]|]; by left.
    + destruct e; by left.
  - apply post_message_db.
  - apply update_ticket_db.
  - rewrite get_ticket_frame. by left.
  - apply post_message_begin_db.
  - left. apply post_message_turn_frame.
Qed.

Lemma registrations_disconnect_le self ticket_id websocket t w :
  (registrations (disconnect self ticket_id websocket) t w ≤ registrations self t w)%nat.
Proof.
  destruct (decide (t = ticket_id)) as [->|Hne].
  - rewrite registrations_disconnect. lia.
  - unfold registrations. by rewrite conns_disconnect_ne.
Qed.

Lemma step_registrations st e ticket_id websocket :
  ¬ opens websocket ticket_id e →
  (registrations (ws_manager (step st e)) ticket_id websocket ≤
   registrations (ws_manager st) ticket_id websocket)%nat.
Proof.
  intros Hopen. destruct e; simpl in *.
  - rewrite ws_connect_spec. simpl. destruct accept as [[]|]; [|done].
    destruct (decide (ticket_id = ticket_id0)) as [->|Hne].
    + rewrite registrations_connect. rewrite decide_False; [lia|]. naive_solver.
    + unfold registrations. by rewrite conns_connect_ne.
  - destruct r as [s|e].
    + rewrite ticket_ws_turn_text.
      destruct (fault st _) as [[]|]; simpl; try done.
      apply registrations_disconnect_le.
    + destruct e; simpl; try done. apply registrations_disconnect_le.
  - by destruct (post_message_frame ticket_id0 msg now new_id st) as (-> & _).
  - by destruct (update_ticket_frame ticket_id0 payload now st) as (-> & _).
  - by rewrite get_ticket_frame.
  - by destruct (post_message_begin_frame ticket_id0 msg now new_id st) as (-> & _).
  - by destruct (post_message_turn_frame l doc i st) as (-> & _).
Qed.

Lemma run_app st evs1 evs2 : run st (evs1 ++ evs2) = run (run st evs1) evs2.
Proof. apply foldl_app. Qed.



Lemma run_documents st evs name o :
  is_Some (collection name st !! o) → is_Some (collection name (run st evs) !! o).
Proof.
  revert st. induction evs as [|e evs IH]; intros st Ho; [done|].
  simpl. apply IH. eapply db_grows_lookup; [apply step_db|done].
Qed.

Lemma run_registrations st evs ticket_id websocket :
  Forall (fun e => ¬ opens websocket ticket_id e) evs →
  (registrations (ws_manager (run st evs)) ticket_id websocket ≤
   registrations (ws_manager st) ticket_id websocket)%nat.
Proof.
  intros Hevs. revert st. induction Hevs as [|e evs He Hevs IH]; intros st; [done|].
  simpl. etrans; [apply IH|]. by apply step_registrations.
Qed.

Lemma update_ticket_writes ticket_id payload now st :
  db (update_ticket ticket_id payload now st).2 = db st ∨
  ∃ o v, db (update_ticket ticket_id payload now st).2 =
         <["ticket" := <[o := v]> (collection "ticket" st)]> (db st).
Proof.
  unfold update_ticket. case_decide; [left; reflexivity|].
  unfold update_one, find_one. unfold_M. destruct (oid ticket_id); [|left; reflexivity].
  destruct (collection "ticket" st !! a); cbn [fst snd]; [|left; reflexivity].
  right. eexists _, _. reflexivity.
Qed.

Lemma collection_db_insert st' name c d0 :
  db st' = <[name := c]> d0 → collection name st' = c.
Proof. intros Hdb. unfold collection. rewrite Hdb, lookup_insert_eq. reflexivity. Qed.

Lemma collection_db_insert_ne st st' name name' c :
  name' ≠ name → db st' = <[name := c]> (db st) →
  collection name' st' = collection name' st.
Proof.
  intros Hne Hdb. unfold collection. rewrite Hdb, lookup_insert_ne by congruence.
  reflexivity.
Qed.

Lemma collection_db_same st st' name :
  db st' = db st → collection name st' = collection name st.
Proof. intros Hdb. unfold collection. rewrite Hdb. reflexivity. Qed.

(** *** Activity elsewhere *)











(** *** A publish next to activity elsewhere *)



Lemma post_message_with_nil ticket_id msg now new_id st :
  post_message_with [] ticket_id msg now new_id st =
  post_message ticket_id msg now new_id st.
Proof. reflexivity. Qed.

(** *** What a connection receives *)

Lemma received_app websocket w1 w2 :
  received websocket (w1 ++ w2) = received websocket w1 ++ received websocket w2.
Proof. unfold received. by rewrite list.filter_app, fmap_app. Qed.

(** *** A stream that is opened and closed leaves no registration behind *)

Lemma run_cons st e evs : run st (e :: evs) = run (step st e) evs.
Proof. done. Qed.

Lemma closed_stream_unregistered st0 websocket ticket_id evs code :
  websocket ∉ conns (ws_manager st0) ticket_id →
  Forall (fun e => ¬ opens websocket ticket_id e) evs →
  websocket ∉
    conns (ws_manager
             (run st0 (WsOpen websocket ticket_id (Return tt) :: evs ++
                       [WsReceive websocket ticket_id
                          (Raise (WebSocketDisconnect code))])))
          ticket_id.
Proof.
  intros Hfresh Hevs. rewrite registrations_pos in Hfresh |- *.
  rewrite run_cons, run_app, run_cons.
  set (s1 := step st0 (WsOpen websocket ticket_id (Return tt))).
  set (s2 := run s1 evs). unfold run. cbn [foldl step].
  assert (registrations (ws_manager s1) ticket_id websocket ≤ 1)%nat as H1.
  { unfold s1, step. rewrite ws_connect_spec. cbn [snd ws_manager].
    rewrite registrations_connect, decide_True by done. lia. }
  pose proof (run_registrations s1 evs ticket_id websocket Hevs) as H2.
  fold s2 in H2. rewrite ticket_ws_turn_disconnect. simpl.
  rewrite registrations_disconnect, decide_True by done. lia.
Qed.

(** * The claims *)

(** Closed statements about concrete runs are settled by running them. *)
Ltac by_evaluation :=
  cbv zeta; repeat (split; [vm_compute; reflexivity|]); vm_compute; reflexivity.

Lemma can_insert_empty name new_id wm w f :
  new_id < 2 ^ 96 → can_insert name new_id (mkState ∅ wm w f).
Proof. intros Hid. split; [done|]. unfold collection. simpl. by rewrite lookup_empty. Qed.






Lemma post_message_new_wire ticket_id msg now new_id st :
  MessageSchema.ticket_id msg = ticket_id →
  can_insert "message" new_id st →
  drop (length (wire st)) (wire (post_message ticket_id msg now new_id st).2) =
  publish_attempts (fault st) (length (wire st))
    (Json (new_message_event msg now new_id)) (conns (ws_manager st) ticket_id).
Proof.
  intros Ht Hins. rewrite post_message_ok by done. simpl. by rewrite drop_app_length.
Qed.




(** C3, as stated, fails on [post_message]: the identifier "T1" is not an
    ObjectId, yet a message whose body names "T1" is written to the store
    and the request is answered without an error. *)
Lemma post_message_accepts_any_ticket_id :
  oid "T1" = Raise (HTTPException 400 "Invalid ID format") ∧
  (post_message "T1" hello noon 5 empty_service).1 =
    Return (Some (message_json hello noon 5)) ∧
  collection "message" empty_service !! 5 = None ∧
  collection "message" (post_message "T1" hello noon 5 empty_service).2 !! 5 =
    Some (message_doc hello noon 5).
Proof.
  split; [reflexivity|].
  rewrite post_message_ok by (done || by apply can_insert_empty).
  split; [reflexivity|]. split; [reflexivity|].
  cbn [snd]. by rewrite collection_insert, lookup_insert_eq.
Qed.

Lemma update_ticket_updates payload :
  sets_a_field payload →
  filter (fun kv => kv.2 ≠ VNone) (TicketUpdate.model_dump payload) ≠ ∅.
Proof.
  intros (k & v & Hk & Hv) Hempty.
  assert (filter (fun kv => kv.2 ≠ VNone) (TicketUpdate.model_dump payload) !! k
          = Some v) as Hf.
  { apply map_lookup_filter_Some. split; [exact Hk|exact Hv]. }
  rewrite Hempty, lookup_empty in Hf. discriminate Hf.
Qed.

(** What the driver takes for an identifier is any string of 24 characters
    that [bytes.fromhex] reads: white space between pairs of digits is
    skipped, so a string such as "00 00 00 00 00 00 00 00 " is an
    identifier (of eight bytes), and [get_ticket] looks it up and finds
    nothing. *)
Lemma spaced_ticket_id_is_looked_up :
  String.length "00 00 00 00 00 00 00 00 " = 24%nat ∧
  ObjectId_of_str "00 00 00 00 00 00 00 00 " = Some (2 ^ 96 + 2 ^ 64) ∧
  get_ticket "00 00 00 00 00 00 00 00 " empty_service =
    (Raise (HTTPException 404 "Ticket not found"), empty_service).
Proof. by_evaluation. Qed.

(** C3, amended.  On the paths that look a ticket up by its identifier,
    [get_ticket] and [update_ticket] with a payload that sets a field, an
    identifier that the driver's [ObjectId] rejects (a string that is not
    24 characters long, or that [bytes.fromhex] cannot read) is answered
    with the client error 400 "Invalid ID format" and the state is left as
    it was. *)
Theorem invalid_ticket_id_is_rejected ticket_id payload now st :
  ObjectId_of_str ticket_id = None →
  sets_a_field payload →
  get_ticket ticket_id st = (Raise (HTTPException 400 "Invalid ID format"), st) ∧
  update_ticket ticket_id payload now st =
    (Raise (HTTPException 400 "Invalid ID format"), st).
Proof.
  intros Hid Hset. split.
  - unfold get_ticket, oid. rewrite Hid. reflexivity.
  - unfold update_ticket. rewrite decide_False by by apply update_ticket_updates.
    unfold oid. rewrite Hid. reflexivity.
Qed.

Lemma invalid_ticket_id_is_rejected_witness :
  get_ticket "T1" empty_service =
    (Raise (HTTPException 400 "Invalid ID format"), empty_service) ∧
  update_ticket "T1" close_it noon empty_service =
    (Raise (HTTPException 400 "Invalid ID format"), empty_service).
Proof.
  apply (invalid_ticket_id_is_rejected "T1" close_it noon empty_service).
  - reflexivity.
  - exists "status", (VStr "closed"). split; [reflexivity|discriminate].
Defined.

Lemma conns_apply_op ticket_id self o :
  conns (apply_op ticket_id self o) ticket_id =
  match o with
  | Subscribe websocket => conns self ticket_id ++ [websocket]
  | Unsubscribe websocket => list_remove websocket (conns self ticket_id)
  end.
Proof. destruct o; simpl; [apply conns_connect_eq|apply conns_disconnect_eq]. Qed.

Lemma track_multiset_refines ticket_id ops self :
  list_to_set_disj (conns (foldl (apply_op ticket_id) self ops) ticket_id) =
  foldl track_multiset (list_to_set_disj (conns self ticket_id)) ops.
Proof.
  revert self. induction ops as [|o ops IH]; intros self; [done|].
  simpl. rewrite IH, conns_apply_op. f_equal. destruct o; simpl.
  - rewrite list_to_set_disj_app. simpl. multiset_solver.
  - apply list_to_set_disj_list_remove.
Qed.

Lemma track_set_refines ticket_id ops self :
  NoDup (conns self ticket_id) →
  subscribes_fresh (list_to_set (conns self ticket_id)) ops →
  NoDup (conns (foldl (apply_op ticket_id) self ops) ticket_id) ∧
  list_to_set (conns (foldl (apply_op ticket_id) self ops) ticket_id) =
  foldl track_set (list_to_set (conns self ticket_id)) ops.
Proof.
  revert self. induction ops as [|o ops IH]; intros self Hnd Hfresh.
  - split; [exact Hnd|reflexivity].
  - cbn [foldl subscribes_fresh] in *. destruct Hfresh as [Ho Hfresh].
    assert (list_to_set (conns (apply_op ticket_id self o) ticket_id) =@{gset nat}
            track_set (list_to_set (conns self ticket_id)) o) as Hset.
    { rewrite conns_apply_op. destruct o; cbn [track_set].
      - rewrite list_to_set_app_L. simpl. set_solver.
      - apply list_to_set_list_remove. exact Hnd. }
    assert (NoDup (conns (apply_op ticket_id self o) ticket_id)) as Hnd'.
    { rewrite conns_apply_op. destruct o.
      - apply list.NoDup_app. split_and!; [exact Hnd| |apply list.NoDup_singleton].
        intros x Hx ->%list_elem_of_singleton. apply Ho.
        apply elem_of_list_to_set. exact Hx.
      - apply NoDup_list_remove. exact Hnd. }
    rewrite <- Hset in Hfresh. rewrite <- Hset. apply IH; assumption.
Qed.

(** C4, as stated, fails when a handle is subscribed twice: after
    Subscribe 1, Subscribe 1, Unsubscribe 1 the registry still lists the
    handle, and the set that tracks additions and removals is empty. *)
Lemma double_subscription_outlives_unsubscribe :
  let ops := [Subscribe 1; Subscribe 1; Unsubscribe 1] in
  conns (foldl (apply_op "T1") (mkWSManager ∅) ops) "T1" = [1%nat] ∧
  foldl track_set ∅ ops = ∅ ∧
  list_to_set (conns (foldl (apply_op "T1") (mkWSManager ∅) ops) "T1") ≠
  foldl track_set ∅ ops.
Proof.
  assert (foldl track_set ∅ [Subscribe 1; Subscribe 1; Unsubscribe 1] =@{gset nat} ∅)
    as Hset by (simpl; set_solver).
  split_and!; [reflexivity|done|].
  cbv zeta. rewrite Hset.
  change (conns _ "T1") with [1%nat]. simpl. set_solver.
Qed.

(** C4, amended.  For every sequence of Subscribe and Unsubscribe on one
    ticket, the listeners of the ticket after the sequence are, counted once
    per registration, the multiset that tracks the additions and removals;
    they are the set that tracks them whenever no handle is subscribed
    while it is registered.  Unsubscribing a handle that is absent changes
    nothing (and [disconnect], a total function, raises nothing). *)
Theorem registry_tracks_subscriptions ticket_id ops self :
  list_to_set_disj (conns (foldl (apply_op ticket_id) self ops) ticket_id) =
    foldl track_multiset (list_to_set_disj (conns self ticket_id)) ops ∧
  (NoDup (conns self ticket_id) →
   subscribes_fresh (list_to_set (conns self ticket_id)) ops →
   list_to_set (conns (foldl (apply_op ticket_id) self ops) ticket_id) =
     foldl track_set (list_to_set (conns self ticket_id)) ops) ∧
  (∀ websocket, websocket ∉ conns self ticket_id →
     disconnect self ticket_id websocket = self).
Proof.
  split_and!.
  - apply track_multiset_refines.
  - intros Hnd Hfresh. by apply track_set_refines.
  - intros websocket. apply disconnect_absent.
Qed.

Lemma registry_tracks_subscriptions_witness :
  list_to_set (conns (foldl (apply_op "T1") (mkWSManager ∅)
                        [Subscribe 1; Subscribe 2; Unsubscribe 1; Unsubscribe 3])
                 "T1") =@{gset nat}
  foldl track_set ∅ [Subscribe 1; Subscribe 2; Unsubscribe 1; Unsubscribe 3].
Proof.
  destruct (registry_tracks_subscriptions "T1"
              [Subscribe 1; Subscribe 2; Unsubscribe 1; Unsubscribe 3]
              (mkWSManager ∅)) as (_ & Hset & _).
  apply Hset.
  - apply NoDup_nil_2.
  - simpl. set_solver.
Defined.








(** C6. Every notification a publish sends is [json.dumps] of one
    dictionary: the persisted message as the response encodes it (ticket
    identifier, message identifier, sender email, content, type and
    creation time, all strings) with the discriminator
    ["event": "new_message"] added, and nothing else. *)
Theorem notification_payload ticket_id msg now new_id st :
  MessageSchema.ticket_id msg = ticket_id →
  can_insert "message" new_id st →
  let st' := (post_message ticket_id msg now new_id st).2 in
  let payload := new_message_event msg now new_id in
  (∀ a, a ∈ drop (length (wire st)) (wire st') → data a = Json payload) ∧
  collection "message" st' !! new_id = Some (message_doc msg now new_id) ∧
  encode_doc (Some (message_doc msg now new_id)) = Some (message_json msg now new_id) ∧
  payload = <["event" := VStr "new_message"]> (message_json msg now new_id) ∧
  json_dumps payload = Return (Json payload) ∧
  dom payload =
    {[ "ticket_id"; "id"; "sender_email"; "content"; "type"; "created_at"; "event" ]} ∧
  payload !! "ticket_id" = Some (VStr ticket_id) ∧
  payload !! "id" = Some (VStr (str_ObjectId new_id)) ∧
  payload !! "sender_email" = Some (VStr (MessageSchema.sender_email msg)) ∧
  payload !! "content" = Some (VStr (MessageSchema.content msg)) ∧
  payload !! "type" =
    Some (VStr (MessageSchema.type_str (MessageSchema.type msg))) ∧
  payload !! "created_at" = Some (VStr (isoformat now)) ∧
  payload !! "event" = Some (VStr "new_message").
Proof.
  intros Ht Hins st' payload. split_and!.
  - intros a Ha. unfold st' in Ha. rewrite post_message_new_wire in Ha by done.
    by apply data_publish_attempts in Ha.
  - unfold st'. rewrite post_message_ok by done. cbn [snd].
    by rewrite collection_insert, lookup_insert_eq.
  - apply encode_message_doc.
  - reflexivity.
  - apply json_dumps_event. eapply encode_doc_json, encode_message_doc.
  - unfold payload, new_message_event, message_json.
    rewrite !dom_insert_L, dom_empty_L. set_solver.
  - subst ticket_id. by destruct msg.
  - by destruct msg.
  - by destruct msg.
  - by destruct msg.
  - by destruct msg.
  - by destruct msg.
  - by destruct msg.
Qed.

(** The scenario of C6: a listener of "T1" and the message "hello". *)
Lemma notification_payload_witness :
  let st := step empty_service (WsOpen 7 "T1" (Return tt)) in
  let st' := (post_message "T1" hello noon 5 st).2 in
  received 7 (wire st') = [Json (new_message_event hello noon 5)] ∧
  new_message_event hello noon 5 !! "ticket_id" = Some (VStr "T1") ∧
  new_message_event hello noon 5 !! "content" = Some (VStr "hello") ∧
  new_message_event hello noon 5 !! "event" = Some (VStr "new_message").
Proof.
  intros st st'.
  destruct (notification_payload "T1" hello noon 5 st eq_refl
              (can_insert_empty "message" 5 _ _ _ eq_refl))
    as (_ & _ & _ & _ & _ & _ & Hticket & _ & _ & Hcontent & _ & _ & Hevent).
  split_and!; [|exact Hticket|exact Hcontent|exact Hevent].
  vm_compute. reflexivity.
Defined.

(** C7. A message whose body names another ticket than the path is
    rejected with the client error 400 before anything is written: the
    state, store included, is as it was. *)
Theorem mismatched_ticket_id_is_rejected ticket_id msg now new_id st :
  MessageSchema.ticket_id msg ≠ ticket_id →
  post_message ticket_id msg now new_id st =
    (Raise (HTTPException 400 "ticket_id mismatch"), st).
Proof.
  intros Hne. rewrite post_message_alone, post_message_begin_spec.
  by rewrite decide_True.
Qed.

Lemma mismatched_ticket_id_is_rejected_witness :
  post_message "T2" hello noon 5 three_listeners =
    (Raise (HTTPException 400 "ticket_id mismatch"), three_listeners).
Proof.
  apply (mismatched_ticket_id_is_rejected "T2" hello noon 5 three_listeners).
  discriminate.
Defined.

Lemma ticket_ws_loop_texts websocket ticket_id texts st :
  (∀ i, (i < length texts)%nat → fault st (length (wire st) + i)%nat = None) →
  ticket_ws_loop websocket ticket_id (Return <$> texts) st =
  (Return Pending,
   mkState (db st) (ws_manager st)
     (wire st ++ ((fun s => Attempt websocket (Raw s) true) <$> texts)) (fault st)).
Proof.
  revert st. induction texts as [|s texts IH]; intros st Hok.
  - simpl. destruct st. simpl. by rewrite app_nil_r.
  - rewrite fmap_cons. cbn [ticket_ws_loop]. unfold_M.
    rewrite ticket_ws_turn_text.
    rewrite <- (Nat.add_0_r (length (wire st))), Hok by (simpl; lia).
    rewrite IH.
    + cbn [db ws_manager wire fault]. rewrite <- app_assoc. done.
    + intros i Hi. cbn [wire fault]. rewrite length_app. simpl.
      rewrite <- Nat.add_assoc. apply Hok. simpl. lia.
Qed.

(** C8. A text frame that arrives on the stream of a ticket is echoed: one
    call of [send_text] on the same connection with the same text, which the
    connection receives unless the transport faults on that call; the store
    is not touched, so no message record is created.  A whole stream of
    text frames is echoed frame by frame, in order. *)
Theorem ticket_stream_echoes websocket ticket_id st :
  (∀ s,
     let n := length (wire st) in
     let st' := (ticket_ws_turn websocket ticket_id (Return s) st).2 in
     db st' = db st ∧
     wire st' =
       wire st ++ [Attempt websocket (Raw s) (bool_decide (fault st n = None))] ∧
     (fault st n = None →
        (ticket_ws_turn websocket ticket_id (Return s) st).1 = Return Pending ∧
        ws_manager st' = ws_manager st ∧
        received websocket (wire st') = received websocket (wire st) ++ [Raw s])) ∧
  (∀ texts,
     (∀ i, (i < length texts)%nat → fault st (length (wire st) + i)%nat = None) →
     let out := ticket_ws websocket ticket_id (Return tt) (Return <$> texts) st in
     out.1 = Return Pending ∧
     db out.2 = db st ∧
     received websocket (wire out.2) =
       received websocket (wire st) ++ (Raw <$> texts)).
Proof.
  split.
  - intros s n st'. unfold st'. rewrite ticket_ws_turn_text. fold n.
    destruct (fault st n) as [e|] eqn:Hf.
    + rewrite bool_decide_eq_false_2 by done. by destruct e.
    + rewrite bool_decide_eq_true_2 by done. cbn [fst snd db wire ws_manager].
      split_and!; [reflexivity..|]. intros _. split_and!; [reflexivity..|].
      rewrite received_app. f_equal. unfold received.
      rewrite filter_cons_True by (split; reflexivity). reflexivity.
  - intros texts Hok out. unfold out, ticket_ws. unfold_M.
    rewrite ws_connect_spec. cbn [connect fst snd].
    rewrite ticket_ws_loop_texts by done. cbn [fst snd db wire].
    split_and!; [reflexivity..|]. rewrite received_app. f_equal.
    unfold received. clear. induction texts as [|s texts IH]; [done|].
    rewrite !fmap_cons, filter_cons_True by done. rewrite fmap_cons.
    simpl. by rewrite IH.
Qed.

(** The scenario of C8: "ping" on the stream of "T1". *)
Lemma ticket_stream_echoes_witness :
  let out := ticket_ws 7 "T1" (Return tt) [Return "ping"] empty_service in
  out.1 = Return Pending ∧ db out.2 = ∅ ∧ received 7 (wire out.2) = [Raw "ping"].
Proof.
  destruct (ticket_stream_echoes 7 "T1" empty_service) as [_ Hstream].
  apply (Hstream ["ping"]). reflexivity.
Defined.

(** C9. When [receive_text] ends in a disconnect, whatever the close code,
    [ticket_ws] handles it itself and returns normally: one registration of
    the connection is removed from the listeners of its ticket, so a
    connection registered once is registered no more; every other
    registration, the store and the wire are as they were, so nothing is
    sent to the other listeners.  The same happens when the disconnect is
    raised while a frame is echoed.  Over a whole stream, opened on a
    connection that was not registered: once it is closed, the connection
    is no longer a listener of the ticket. *)
Theorem disconnect_unsubscribes websocket ticket_id st :
  (∀ code,
     let out := ticket_ws_turn websocket ticket_id
                  (Raise (WebSocketDisconnect code)) st in
     out.1 = Return Returned ∧
     ws_manager out.2 = disconnect (ws_manager st) ticket_id websocket ∧
     conns (ws_manager out.2) ticket_id =
       list_remove websocket (conns (ws_manager st) ticket_id) ∧
     registrations (ws_manager out.2) ticket_id websocket =
       pred (registrations (ws_manager st) ticket_id websocket) ∧
     ((registrations (ws_manager st) ticket_id websocket ≤ 1)%nat →
        websocket ∉ conns (ws_manager out.2) ticket_id) ∧
     (∀ w, w ≠ websocket →
        registrations (ws_manager out.2) ticket_id w =
        registrations (ws_manager st) ticket_id w) ∧
     (∀ t, t ≠ ticket_id → conns (ws_manager out.2) t = conns (ws_manager st) t) ∧
     wire out.2 = wire st ∧ db out.2 = db st) ∧
  (∀ s code,
     fault st (length (wire st)) = Some (WebSocketDisconnect code) →
     let out := ticket_ws_turn websocket ticket_id (Return s) st in
     out.1 = Return Returned ∧
     ws_manager out.2 = disconnect (ws_manager st) ticket_id websocket ∧
     wire out.2 = wire st ++ [Attempt websocket (Raw s) false] ∧
     db out.2 = db st) ∧
  (∀ evs code,
     websocket ∉ conns (ws_manager st) ticket_id →
     Forall (fun e => ¬ opens websocket ticket_id e) evs →
     websocket ∉
       conns (ws_manager
                (run st (WsOpen websocket ticket_id (Return tt) :: evs ++
                         [WsReceive websocket ticket_id
                            (Raise (WebSocketDisconnect code))])))
             ticket_id).
Proof.
  split_and!.
  - intros code out. unfold out. rewrite ticket_ws_turn_disconnect.
    cbn [fst snd ws_manager wire db]. split_and!; [reflexivity..| | | | | |reflexivity|reflexivity].
    + apply conns_disconnect_eq.
    + rewrite registrations_disconnect, decide_True by reflexivity. lia.
    + intros Hone. rewrite registrations_pos, registrations_disconnect,
        decide_True by reflexivity. lia.
    + intros w Hw. rewrite registrations_disconnect, decide_False by congruence. lia.
    + intros t Ht. by apply conns_disconnect_ne.
  - intros s code Hf out. unfold out. rewrite ticket_ws_turn_text, Hf.
    cbn [fst snd ws_manager wire db]. split_and!; reflexivity.
  - intros evs code Hfresh Hevs. by apply closed_stream_unregistered.
Qed.

(** A listener of "T1" next to two others; its stream ends with close code
    1006 (abnormal closure). *)
Lemma disconnect_unsubscribes_witness :
  let out := ticket_ws_turn 2 "T1" (Raise (WebSocketDisconnect 1006))
               three_listeners in
  out.1 = Return Returned ∧
  conns (ws_manager out.2) "T1" = [1; 3]%nat ∧
  (2 ∉ conns (ws_manager out.2) "T1")%nat ∧
  wire out.2 = [].
Proof.
  destruct (disconnect_unsubscribes 2 "T1" three_listeners) as (Hturn & _ & _).
  destruct (Hturn 1006%nat) as (Hret & _ & Hconns & _ & Hgone & _ & _ & Hwire & _).
  split_and!; [exact Hret|exact Hconns| |exact Hwire].
  apply Hgone. vm_compute. lia.
Defined.







(** * Further properties of the code *)

(** *** Encoding *)

Lemma encode_value_idem v : encode_value (encode_value v) = encode_value v.
Proof. destruct v; reflexivity. Qed.

Lemma encode_value_not_ObjectId v o : encode_value v ≠ VObjectId o.
Proof. destruct v; discriminate. Qed.

Lemma encode_doc_Some_nonempty (d : gmap string value) :
  d ≠ ∅ →
  encode_doc (Some d) =
  Some (encode_value <$>
          match d !! "_id" with
          | Some (VObjectId o) => <["id" := VStr (str_ObjectId o)]> (delete "_id" d)
          | _ => d
          end).
Proof. intros Hd. unfold encode_doc. rewrite decide_False by exact Hd. reflexivity. Qed.

Lemma encode_doc_plain (d : gmap string value) :
  (∀ o, d !! "_id" ≠ Some (VObjectId o)) →
  encode_doc (Some d) = Some (encode_value <$> d).
Proof.
  intros Hid. unfold encode_doc. case_decide as Hd.
  - subst d. rewrite fmap_empty. reflexivity.
  - destruct (d !! "_id") as [[]|] eqn:H_id; try reflexivity.
    destruct (Hid o). reflexivity.
Qed.

Lemma encode_doc_with_id (d : gmap string value) o :
  d !! "_id" = Some (VObjectId o) →
  encode_doc (Some d) =
  Some (encode_value <$> <["id" := VStr (str_ObjectId o)]> (delete "_id" d)).
Proof.
  intros Hid. rewrite encode_doc_Some_nonempty, Hid; [reflexivity|].
  intros ->. rewrite lookup_empty in Hid. discriminate Hid.
Qed.

(** Encoding again changes nothing. *)
Theorem encode_doc_idempotent doc : encode_doc (encode_doc doc) = encode_doc doc.
Proof.
  destruct doc as [d|]; [|reflexivity].
  destruct (decide (d = ∅)) as [->|Hd].
  { unfold encode_doc. rewrite !decide_True by reflexivity. reflexivity. }
  rewrite (encode_doc_Some_nonempty d Hd).
  set (d' := match d !! "_id" with
             | Some (VObjectId o) => <["id" := VStr (str_ObjectId o)]> (delete "_id" d)
             | _ => d
             end).
  rewrite encode_doc_plain.
  - f_equal. rewrite <- map_fmap_compose. apply map_fmap_ext.
    intros k v _. apply encode_value_idem.
  - intros o. rewrite lookup_fmap. destruct (d' !! "_id") as [v|]; [|discriminate].
    simpl. intros [= Hv]. by apply encode_value_not_ObjectId in Hv.
Qed.

(** The document as the API shows it: the ObjectId under ["_id"] appears as
    a string under ["id"] (replacing an ["id"] field the document may have
    had), there is no ["_id"], and every other field is there, encoded. *)
Theorem encode_doc_renames_id (d : gmap string value) o :
  d !! "_id" = Some (VObjectId o) →
  ∃ e, encode_doc (Some d) = Some e ∧
       e !! "_id" = None ∧
       e !! "id" = Some (VStr (str_ObjectId o)) ∧
       (∀ k, k ≠ "_id" → k ≠ "id" → e !! k = encode_value <$> d !! k) ∧
       json_serializable e.
Proof.
  intros Hid. eexists. split; [apply (encode_doc_with_id d o Hid)|].
  split_and!.
  - rewrite lookup_fmap, lookup_insert_ne by discriminate.
    rewrite lookup_delete_eq. reflexivity.
  - rewrite lookup_fmap, lookup_insert_eq. reflexivity.
  - intros k Hk1 Hk2. rewrite lookup_fmap, lookup_insert_ne by congruence.
    rewrite lookup_delete_ne by congruence. reflexivity.
  - eapply encode_doc_json. apply (encode_doc_with_id d o Hid).
Qed.

Lemma encode_doc_renames_id_witness :
  ∃ e, encode_doc (Some (message_doc hello noon 5)) = Some e ∧
       e !! "_id" = None ∧
       e !! "id" = Some (VStr "000000000000000000000005").
Proof.
  destruct (encode_doc_renames_id (message_doc hello noon 5) 5 eq_refl)
    as (e & He & Hno & Hid & _).
  exists e. split_and!; [exact He|exact Hno|exact Hid].
Defined.

(** The identifier a response carries is one [oid] accepts, and it is the
    identifier of the document. *)
Theorem response_id_is_valid (d : gmap string value) o :
  o < 2 ^ 96 →
  d !! "_id" = Some (VObjectId o) →
  ∃ e s, encode_doc (Some d) = Some e ∧ e !! "id" = Some (VStr s) ∧
         oid s = Return o.
Proof.
  intros Ho Hid. eexists _, (str_ObjectId o).
  split_and!; [apply (encode_doc_with_id d o Hid)| |].
  { rewrite lookup_fmap, lookup_insert_eq. reflexivity. }
  unfold oid. rewrite ObjectId_of_str_str by exact Ho. reflexivity.
Qed.

Lemma response_id_is_valid_witness :
  ∃ e s, encode_doc (Some (message_doc hello noon 5)) = Some e ∧
         e !! "id" = Some (VStr s) ∧ oid s = Return 5.
Proof. apply (response_id_is_valid (message_doc hello noon 5) 5); reflexivity. Defined.

(** *** Tickets *)

Lemma update_ticket_found ticket_id payload now o d st :
  sets_a_field payload →
  ObjectId_of_str ticket_id = Some o →
  collection "ticket" st !! o = Some d →
  update_ticket ticket_id payload now st =
  (Return (encode_doc (Some (patch_updates payload now ∪ d))),
   mkState (<["ticket" := <[o := patch_updates payload now ∪ d]>
                            (collection "ticket" st)]> (db st))
     (ws_manager st) (wire st) (fault st)).
Proof.
  intros Hset Ho Hd. unfold update_ticket.
  rewrite decide_False by (apply update_ticket_updates; exact Hset).
  unfold oid, update_one, find_one. rewrite Ho. unfold_M. rewrite Hd.
  rewrite decide_False by discriminate. unfold set_db. cbn [db ws_manager wire fault].
  rewrite collection_insert, lookup_insert_eq. reflexivity.
Qed.

Lemma patch_updates_at payload now :
  patch_updates payload now !! "updated_at" = Some (VDatetime (bson_datetime now)).
Proof. unfold patch_updates. by rewrite lookup_fmap, lookup_insert_eq. Qed.

Lemma TicketUpdate_field_plain v : bson_value (TicketUpdate.field v) = TicketUpdate.field v.
Proof. by destruct v. Qed.

Lemma TicketUpdate_model_dump_plain payload k v :
  TicketUpdate.model_dump payload !! k = Some v → bson_value v = v.
Proof.
  unfold TicketUpdate.model_dump. intros Hk.
  repeat (apply lookup_insert_Some in Hk as [[_ <-]|[_ Hk]];
          [apply TicketUpdate_field_plain|]).
  rewrite lookup_empty in Hk. discriminate Hk.
Qed.

Lemma update_ticket_missing ticket_id payload now o st :
  sets_a_field payload →
  ObjectId_of_str ticket_id = Some o →
  collection "ticket" st !! o = None →
  update_ticket ticket_id payload now st =
  (Raise (HTTPException 404 "Ticket not found"), st).
Proof.
  intros Hset Ho Hd. unfold update_ticket.
  rewrite decide_False by (apply update_ticket_updates; exact Hset).
  unfold oid, update_one. rewrite Ho. unfold_M. rewrite Hd.
  rewrite decide_True by reflexivity. reflexivity.
Qed.

Lemma update_ticket_invalid ticket_id payload now st :
  sets_a_field payload →
  ObjectId_of_str ticket_id = None →
  update_ticket ticket_id payload now st =
  (Raise (HTTPException 400 "Invalid ID format"), st).
Proof.
  intros Hset Ho. unfold update_ticket.
  rewrite decide_False by (apply update_ticket_updates; exact Hset).
  unfold oid. rewrite Ho. reflexivity.
Qed.

Lemma update_ticket_nothing ticket_id payload now st :
  ¬ sets_a_field payload →
  update_ticket ticket_id payload now st =
  (Return (Some {["updated" := VBool false]}), st).
Proof.
  intros Hset. unfold update_ticket. rewrite decide_True; [reflexivity|].
  apply map_empty. intros k.
  destruct (filter _ _ !! k) as [v|] eqn:Hk; [|reflexivity].
  apply map_lookup_filter_Some in Hk as [Hk Hv]. destruct Hset. by exists k, v.
Qed.

Lemma sets_a_field_or_not payload : sets_a_field payload ∨ ¬ sets_a_field payload.
Proof.
  destruct (decide (filter (fun kv => kv.2 ≠ VNone)
                      (TicketUpdate.model_dump payload) = ∅)) as [He|Hne].
  - right. intros (k & v & Hk & Hv).
    assert (filter (fun kv => kv.2 ≠ VNone) (TicketUpdate.model_dump payload) !! k
            = Some v) as Hf.
    { apply map_lookup_filter_Some. split; [exact Hk|exact Hv]. }
    rewrite He, lookup_empty in Hf. discriminate Hf.
  - left. apply map_choose in Hne as (k & v & Hkv).
    apply map_lookup_filter_Some in Hkv as [Hk Hv]. by exists k, v.
Qed.

Lemma collection_insert_ne name name' c d wm w f :
  name' ≠ name →
  collection name' (mkState (<[name := c]> d) wm w f) = collection name' (mkState d wm w f).
Proof. intros Hne. unfold collection. simpl. by rewrite lookup_insert_ne. Qed.

Lemma collection_eta name st :
  collection name (mkState (db st) (ws_manager st) (wire st) (fault st)) =
  collection name st.
Proof. reflexivity. Qed.

Lemma Return_inj {A} (a b : A) : Return a = Return b → a = b.
Proof. intros H. injection H as H. exact H. Qed.

Lemma Some_inj' {A} (a b : A) : Some a = Some b → a = b.
Proof. intros H. injection H as H. exact H. Qed.

(** A PATCH that does not end in an updated ticket changes nothing: the
    only errors are 400 (identifier not an ObjectId) and 404 (no such
    ticket, nothing is created in its place), and with them, as with the
    answer [{"updated": false}], the state is what it was. *)
Theorem update_ticket_fails_cleanly ticket_id payload now st :
  (∀ e, (update_ticket ticket_id payload now st).1 = Raise e →
        (e = HTTPException 400 "Invalid ID format" ∨
         e = HTTPException 404 "Ticket not found") ∧
        (update_ticket ticket_id payload now st).2 = st) ∧
  ((update_ticket ticket_id payload now st).1 =
     Return (Some {["updated" := VBool false]}) →
   (update_ticket ticket_id payload now st).2 = st).
Proof.
  destruct (sets_a_field_or_not payload) as [Hset|Hset].
  2:{ rewrite update_ticket_nothing by exact Hset. split; [discriminate|reflexivity]. }
  destruct (ObjectId_of_str ticket_id) as [o|] eqn:Ho.
  2:{ rewrite (update_ticket_invalid _ _ _ _ Hset Ho). cbn [fst snd].
      split; [|reflexivity]. intros e [= <-]. split; [by left|reflexivity]. }
  destruct (collection "ticket" st !! o) as [d|] eqn:Hd.
  - rewrite (update_ticket_found _ _ _ _ _ _ Hset Ho Hd). cbn [fst snd].
    split; [discriminate|]. intros Heq%Return_inj. exfalso.
    assert (patch_updates payload now ∪ d ≠ ∅) as Hne.
    { intros Hempty. apply (f_equal (fun m => m !! "updated_at")) in Hempty.
      cbv beta in Hempty. rewrite lookup_empty in Hempty.
      erewrite lookup_union_Some_l in Hempty; [discriminate|].
      apply patch_updates_at. }
    rewrite (encode_doc_Some_nonempty _ Hne) in Heq. apply Some_inj' in Heq.
    apply (f_equal (fun m => m !! "updated_at")) in Heq. cbv beta in Heq.
    rewrite lookup_fmap in Heq.
    assert (∀ m : gmap string value,
              m !! "updated_at" = Some (VDatetime (bson_datetime now)) →
              match m !! "_id" with
              | Some (VObjectId o0) =>
                  <["id" := VStr (str_ObjectId o0)]> (delete "_id" m)
              | _ => m
              end !! "updated_at" = Some (VDatetime (bson_datetime now))) as Hkeep.
    { intros m Hm. destruct (m !! "_id") as [[]|]; try exact Hm.
      rewrite lookup_insert_ne by discriminate.
      rewrite lookup_delete_ne by discriminate. exact Hm. }
    rewrite Hkeep in Heq.
    + rewrite lookup_singleton_ne in Heq by discriminate. discriminate Heq.
    + apply lookup_union_Some_l. apply patch_updates_at.
  - rewrite (update_ticket_missing _ _ _ _ _ Hset Ho Hd). cbn [fst snd].
    split; [|reflexivity]. intros e [= <-]. split; [by right|reflexivity].
Qed.

Lemma patch_updates_lookup payload now k :
  k ≠ "updated_at" →
  patch_updates payload now !! k =
  match TicketUpdate.model_dump payload !! k with
  | Some VNone | None => None
  | Some v => Some v
  end.
Proof.
  intros Hk. unfold patch_updates.
  rewrite lookup_fmap, lookup_insert_ne by congruence.
  destruct (TicketUpdate.model_dump payload !! k) as [v|] eqn:Hv.
  - destruct (decide (v = VNone)) as [->|Hne].
    + assert (filter (fun kv => kv.2 ≠ VNone) (TicketUpdate.model_dump payload) !! k
              = None) as ->; [|reflexivity].
      apply map_lookup_filter_None. right. intros v' Hv'. simpl.
      rewrite Hv in Hv'. injection Hv' as <-. intros Hx. apply Hx. reflexivity.
    + assert (filter (fun kv => kv.2 ≠ VNone) (TicketUpdate.model_dump payload) !! k
              = Some v) as ->.
      { apply map_lookup_filter_Some. split; [exact Hv|exact Hne]. }
      simpl. rewrite (TicketUpdate_model_dump_plain _ _ _ Hv).
      destruct v; [destruct Hne|..]; reflexivity.
  - assert (filter (fun kv => kv.2 ≠ VNone) (TicketUpdate.model_dump payload) !! k
            = None) as ->; [|reflexivity].
    apply map_lookup_filter_None. left. exact Hv.
Qed.

(** A PATCH that finds its ticket: the fields the payload gives are set,
    [updated_at] is the time of the request as the store keeps it (cut to
    milliseconds, without the UTC offset), every other field of the
    ticket is kept (its [_id] among them); no other ticket, no other
    collection, neither the registry nor the wire is touched, and no ticket
    appears or disappears.  The answer is the ticket as rewritten, and a GET
    on the same identifier right after gives the same answer. *)
Theorem update_ticket_rewrites_one_ticket ticket_id payload now o d st :
  sets_a_field payload →
  ObjectId_of_str ticket_id = Some o →
  collection "ticket" st !! o = Some d →
  let st' := (update_ticket ticket_id payload now st).2 in
  ∃ d',
    collection "ticket" st' !! o = Some d' ∧
    (update_ticket ticket_id payload now st).1 = Return (encode_doc (Some d')) ∧
    get_ticket ticket_id st' = (Return (encode_doc (Some d')), st') ∧
    d' !! "updated_at" = Some (VDatetime (bson_datetime now)) ∧
    (∀ k v, k ≠ "updated_at" → TicketUpdate.model_dump payload !! k = Some v →
            v ≠ VNone → d' !! k = Some v) ∧
    (∀ k, k ≠ "updated_at" →
          TicketUpdate.model_dump payload !! k = None ∨
          TicketUpdate.model_dump payload !! k = Some VNone →
          d' !! k = d !! k) ∧
    (∀ o', o' ≠ o → collection "ticket" st' !! o' = collection "ticket" st !! o') ∧
    dom (collection "ticket" st') = dom (collection "ticket" st) ∧
    (∀ name, name ≠ "ticket" → collection name st' = collection name st) ∧
    ws_manager st' = ws_manager st ∧ wire st' = wire st.
Proof.
  intros Hset Ho Hd st'. unfold st'.
  rewrite (update_ticket_found _ _ _ _ _ _ Hset Ho Hd). cbn [fst snd].
  set (d' := patch_updates payload now ∪ d).
  assert (Hat : d' !! "updated_at" = Some (VDatetime (bson_datetime now))).
  { apply lookup_union_Some_l. apply patch_updates_at. }
  exists d'. split_and!.
  - rewrite collection_insert. apply lookup_insert_eq.
  - reflexivity.
  - unfold get_ticket, oid, find_one. rewrite Ho. unfold_M.
    rewrite collection_insert, lookup_insert_eq.
    rewrite decide_False; [reflexivity|].
    intros Hempty. rewrite Hempty, lookup_empty in Hat. discriminate Hat.
  - exact Hat.
  - intros k v Hk Hv Hne. apply lookup_union_Some_l.
    rewrite patch_updates_lookup, Hv by exact Hk.
    destruct v; [destruct Hne; reflexivity|reflexivity..].
  - intros k Hk Hnone. unfold d'. apply lookup_union_r.
    rewrite patch_updates_lookup by exact Hk.
    destruct Hnone as [-> | ->]; reflexivity.
  - intros o' Ho'. rewrite collection_insert. apply lookup_insert_ne. congruence.
  - rewrite collection_insert. apply dom_insert_lookup_L. eexists. exact Hd.
  - intros name Hname. rewrite collection_insert_ne by exact Hname. reflexivity.
  - reflexivity.
  - reflexivity.
Qed.

Lemma close_it_sets_a_field : sets_a_field close_it.
Proof. exists "status", (VStr "closed"). split; [reflexivity|discriminate]. Qed.

Lemma update_ticket_rewrites_one_ticket_witness :
  ∃ d', collection "ticket"
          (update_ticket "000000000000000000000001" close_it utc_now one_ticket).2 !! 1
        = Some d' ∧
        d' !! "status" = Some (VStr "closed") ∧
        d' !! "title" = Some (VStr "Demo issue") ∧
        d' !! "updated_at" = Some (VDatetime (Datetime "2024-05-02T09:30:00.123000")).
Proof.
  destruct (update_ticket_rewrites_one_ticket "000000000000000000000001"
              close_it utc_now 1 (ticket_doc demo_ticket noon 1) one_ticket
              close_it_sets_a_field eq_refl eq_refl)
    as (d' & Hd' & _ & _ & Hat & Hset & Hkeep & _).
  exists d'. split_and!; [exact Hd'| | |exact Hat].
  - apply Hset; [discriminate|reflexivity|discriminate].
  - rewrite Hkeep; [reflexivity|discriminate|]. right. reflexivity.
Defined.

(** A PATCH whose payload sets no field answers [{"updated": false}] at
    once: the identifier is not even parsed, so the answer is the same for
    an identifier that is malformed or names no ticket, and nothing
    changes. *)
Theorem empty_patch_is_ignored ticket_id payload now st :
  TicketUpdate.title payload = None →
  TicketUpdate.description payload = None →
  TicketUpdate.status payload = None →
  TicketUpdate.priority payload = None →
  TicketUpdate.assigned_to payload = None →
  update_ticket ticket_id payload now st =
  (Return (Some {["updated" := VBool false]}), st).
Proof.
  intros. destruct payload as [a b c d e]. simpl in *. subst.
  apply update_ticket_nothing. intros (k & v & Hk & Hv).
  apply Hv. clear Hv.
  unfold TicketUpdate.model_dump in Hk. simpl in Hk.
  repeat (apply lookup_insert_Some in Hk as [[_ <-]|[_ Hk]]; [reflexivity|]).
  rewrite lookup_empty in Hk. discriminate Hk.
Qed.

Lemma empty_patch_is_ignored_witness :
  update_ticket "not-an-id" no_change later one_ticket =
  (Return (Some {["updated" := VBool false]}), one_ticket).
Proof. apply (empty_patch_is_ignored "not-an-id" no_change later one_ticket); reflexivity. Defined.

Lemma create_ticket_ok ticket now new_id st :
  can_insert "ticket" new_id st →
  create_ticket ticket now new_id st =
  (Return (encode_doc (Some (ticket_doc ticket now new_id))),
   mkState (<["ticket" := <[new_id := ticket_doc ticket now new_id]>
                            (collection "ticket" st)]> (db st))
     (ws_manager st) (wire st) (fault st)).
Proof.
  intros [Hid Hfresh]. unfold create_ticket, create_document, insert_one, find_one,
    ObjectId_new. unfold_M. rewrite Hfresh.
  rewrite ObjectId_of_str_str by exact Hid.
  unfold set_db. cbn [db ws_manager wire fault].
  rewrite !collection_insert, lookup_insert_eq. reflexivity.
Qed.

Lemma ticket_doc_id ticket now new_id :
  ticket_doc ticket now new_id !! "_id" = Some (VObjectId new_id).
Proof. unfold ticket_doc. apply lookup_insert_eq. Qed.

(** A ticket that has been created is found: the answer of [create_ticket]
    carries the new identifier under ["id"], and a GET on that identifier
    gives the same answer; the tickets that were there are still there,
    unchanged. *)
Theorem created_ticket_is_found ticket now new_id st :
  can_insert "ticket" new_id st →
  let out := create_ticket ticket now new_id st in
  ∃ e, out.1 = Return (Some e) ∧
       e !! "id" = Some (VStr (str_ObjectId new_id)) ∧
       e !! "_id" = None ∧
       get_ticket (str_ObjectId new_id) out.2 = (Return (Some e), out.2) ∧
       (∀ o, o ≠ new_id →
             collection "ticket" out.2 !! o = collection "ticket" st !! o) ∧
       ws_manager out.2 = ws_manager st ∧ wire out.2 = wire st.
Proof.
  intros Hins out. unfold out. rewrite (create_ticket_ok _ _ _ _ Hins).
  cbn [fst snd].
  pose proof (encode_doc_with_id _ _ (ticket_doc_id ticket now new_id)) as He.
  eexists. rewrite He. split_and!; [reflexivity| | | | |reflexivity..].
  - rewrite lookup_fmap, lookup_insert_eq. reflexivity.
  - rewrite lookup_fmap, lookup_insert_ne by discriminate.
    rewrite lookup_delete_eq. reflexivity.
  - unfold get_ticket, oid, find_one.
    rewrite ObjectId_of_str_str by apply Hins. unfold_M.
    rewrite collection_insert, lookup_insert_eq.
    rewrite decide_False; [rewrite He; reflexivity|].
    intros Hempty. pose proof (ticket_doc_id ticket now new_id) as Hdoc.
    rewrite Hempty, lookup_empty in Hdoc. discriminate Hdoc.
  - intros o Ho. rewrite collection_insert. apply lookup_insert_ne. congruence.
Qed.

Lemma created_ticket_is_found_witness :
  ∃ e, (create_ticket demo_ticket noon 1 empty_service).1 = Return (Some e) ∧
       get_ticket "000000000000000000000001" one_ticket = (Return (Some e), one_ticket).
Proof.
  destruct (created_ticket_is_found demo_ticket noon 1 empty_service
              (can_insert_empty "ticket" 1 _ _ _ eq_refl))
    as (e & Hout & _ & _ & Hget & _).
  exists e. split; [exact Hout|exact Hget].
Defined.

(** *** Reading a ticket; the registry *)

(** A GET never changes the state; it answers only with a ticket that is
    stored under the identifier given, and its only errors are 400 and
    404. *)
Theorem get_ticket_reads ticket_id st :
  (get_ticket ticket_id st).2 = st ∧
  (∀ e, (get_ticket ticket_id st).1 = Return e →
        ∃ o d, ObjectId_of_str ticket_id = Some o ∧
               collection "ticket" st !! o = Some d ∧ e = encode_doc (Some d)) ∧
  (∀ err, (get_ticket ticket_id st).1 = Raise err →
          err = HTTPException 400 "Invalid ID format" ∨
          err = HTTPException 404 "Ticket not found").
Proof.
  split; [apply get_ticket_frame|].
  unfold get_ticket, oid, find_one. unfold_M.
  destruct (ObjectId_of_str ticket_id) as [o|] eqn:Ho.
  - destruct (collection "ticket" st !! o) as [d|] eqn:Hd.
    + case_decide as He; cbn [fst].
      * split; [discriminate|]. intros err Herr. right. congruence.
      * split; [|discriminate]. intros e Heq%Return_inj. exists o, d.
        split_and!; [reflexivity|exact Hd|congruence].
    + cbn [fst]. split; [discriminate|]. intros err Herr. right. congruence.
  - cbn [fst]. split; [discriminate|]. intros err Herr. left. congruence.
Qed.

Lemma list_remove_snoc x l :
  list_remove x (l ++ [x]) = if decide (x ∈ l) then list_remove x l ++ [x] else l.
Proof.
  induction l as [|y l IH].
  - cbn [list_remove app]. rewrite decide_True by reflexivity.
    rewrite decide_False; [reflexivity|]. apply not_elem_of_nil.
  - cbn [list_remove app]. destruct (decide (x = y)) as [->|Hne].
    + rewrite decide_True; [reflexivity|]. apply elem_of_cons. by left.
    + rewrite IH. destruct (decide (x ∈ l)) as [Hin|Hin].
      * rewrite decide_True; [reflexivity|]. apply elem_of_cons. by right.
      * rewrite decide_False; [reflexivity|].
        intros [?|?]%elem_of_cons; [congruence|contradiction].
Qed.

(** Subscribing a connection and unsubscribing it again: if it was not a
    listener of the ticket, the listeners are as before, in the same order;
    if it was one already, it is its earlier registration that goes, and
    the connection moves to the end of the list. *)
Theorem connect_then_disconnect self ticket_id websocket :
  let self' := disconnect (connect self ticket_id websocket (Return tt)).2
                 ticket_id websocket in
  (websocket ∉ conns self ticket_id →
     conns self' ticket_id = conns self ticket_id) ∧
  (websocket ∈ conns self ticket_id →
     conns self' ticket_id =
     list_remove websocket (conns self ticket_id) ++ [websocket]) ∧
  (∀ w, registrations self' ticket_id w = registrations self ticket_id w) ∧
  (∀ t, t ≠ ticket_id → conns self' t = conns self t).
Proof.
  intros self'. unfold self'. split_and!.
  - intros Hin. rewrite conns_disconnect_eq, conns_connect_eq, list_remove_snoc.
    rewrite decide_False by exact Hin. reflexivity.
  - intros Hin. rewrite conns_disconnect_eq, conns_connect_eq, list_remove_snoc.
    rewrite decide_True by exact Hin. reflexivity.
  - intros w. rewrite registrations_disconnect, registrations_connect.
    case_decide; lia.
  - intros t Ht. rewrite conns_disconnect_ne, conns_connect_ne by exact Ht.
    reflexivity.
Qed.

Lemma connect_then_disconnect_witness :
  conns (disconnect (connect (mkWSManager {["T1" := [7; 8]%nat]}) "T1" 7
                       (Return tt)).2 "T1" 7) "T1" = [8; 7]%nat.
Proof.
  destruct (connect_then_disconnect (mkWSManager {["T1" := [7; 8]%nat]}) "T1" 7)
    as (_ & Hmove & _).
  apply Hmove. apply elem_of_cons. left. reflexivity.
Defined.

Lemma active_connections_apply_op ticket_id self o :
  active_connections (apply_op ticket_id self o) = active_connections self ∨
  ∃ l, active_connections (apply_op ticket_id self o) =
       <[ticket_id := l]> (active_connections self).
Proof.
  destruct o as [w|w]; simpl.
  - right. eexists. reflexivity.
  - unfold disconnect. case_decide; [right; eexists; reflexivity|left; reflexivity].
Qed.

(** The registry never forgets a ticket: no sequence of Subscribe and
    Unsubscribe removes a key of [active_connections] or touches the entry
    of another ticket; when the only listener of a ticket leaves, the
    ticket stays in the dictionary with an empty list. *)
Theorem registry_never_forgets_a_ticket ticket_id ops self :
  dom (active_connections self) ⊆
    dom (active_connections (foldl (apply_op ticket_id) self ops)) ∧
  (∀ t, t ≠ ticket_id →
        active_connections (foldl (apply_op ticket_id) self ops) !! t =
        active_connections self !! t) ∧
  (∀ websocket,
     active_connections self !! ticket_id = None →
     active_connections
       (disconnect (connect self ticket_id websocket (Return tt)).2
          ticket_id websocket) !! ticket_id = Some []).
Proof.
  split_and!.
  - revert self. induction ops as [|o ops IH]; intros self; [reflexivity|].
    cbn [foldl]. etrans; [|apply IH].
    destruct (active_connections_apply_op ticket_id self o) as [->|[l ->]];
      [reflexivity|].
    rewrite dom_insert. apply union_subseteq_r.
  - intros t Ht. revert self. induction ops as [|o ops IH]; intros self; [reflexivity|].
    cbn [foldl]. rewrite IH.
    destruct (active_connections_apply_op ticket_id self o) as [->|[l ->]];
      [reflexivity|].
    apply lookup_insert_ne. congruence.
  - intros websocket Hnone.
    assert (conns (connect self ticket_id websocket (Return tt)).2 ticket_id =
            [websocket]) as Hc.
    { rewrite conns_connect_eq. unfold conns. rewrite Hnone. reflexivity. }
    unfold disconnect. rewrite Hc.
    rewrite decide_True by (apply elem_of_cons; by left).
    cbn [active_connections]. rewrite lookup_insert_eq.
    cbn [list_remove]. rewrite decide_True by reflexivity. reflexivity.
Qed.

Lemma registry_never_forgets_a_ticket_witness :
  active_connections
    (disconnect (connect (mkWSManager ∅) "T1" 7 (Return tt)).2 "T1" 7) !! "T1"
  = Some [].
Proof.
  destruct (registry_never_forgets_a_ticket "T1" [] (mkWSManager ∅))
    as (_ & _ & Hstays).
  apply Hstays. reflexivity.
Defined.

(** [safe_send] never raises.  It makes one call of [send_text] when the
    data can be dumped as JSON, whether or not the transport takes it, and
    none when it cannot: the data are then dropped silently.  Nothing but
    the wire changes. *)
Theorem safe_send_never_raises websocket data st :
  let out := safe_send websocket data st in
  out.1 = Return tt ∧
  db out.2 = db st ∧ ws_manager out.2 = ws_manager st ∧ fault out.2 = fault st ∧
  (json_serializable data →
     wire out.2 =
     wire st ++ [Attempt websocket (Json data)
                   (bool_decide (fault st (length (wire st)) = None))]) ∧
  (¬ json_serializable data → wire out.2 = wire st).
Proof.
  intros out. unfold out, safe_send, json_dumps, send_text. unfold_M.
  destruct (decide (json_serializable data)) as [Hj|Hj].
  - destruct (fault st (length (wire st))) as [e|] eqn:Hf; cbn [fst snd db ws_manager
      fault wire set_wire]; (split_and!; [reflexivity..| |]);
      try (intros _; reflexivity); intros Hn; destruct (Hn Hj).
  - cbn [fst snd]. split_and!; [reflexivity..| |]; [intros Hy; destruct (Hj Hy)|].
    intros _. reflexivity.
Qed.

Lemma safe_send_never_raises_witness :
  (safe_send 2 (message_doc hello noon 5) three_listeners).1 = Return tt ∧
  wire (safe_send 2 (message_doc hello noon 5) three_listeners).2 = [].
Proof.
  destruct (safe_send_never_raises 2 (message_doc hello noon 5) three_listeners)
    as (Hret & _ & _ & _ & _ & Hdrop).
  split; [exact Hret|]. apply Hdrop.
  intros Hj. specialize (Hj "_id" (VObjectId 5) eq_refl). discriminate Hj.
Defined.

(** *** Streams *)

Lemma ticket_ws_turn_effect websocket ticket_id r st :
  stream_effect websocket ticket_id [r]
    (ticket_ws_turn websocket ticket_id r st).1 st
    (ticket_ws_turn websocket ticket_id r st).2.
Proof.
  assert (Hecho : ∀ s b, Forall (fun a => to a = websocket ∧
                     ∃ s', data a = Raw s' ∧ Return s' ∈ [Return s])
                   [Attempt websocket (Raw s) b]).
  { intros s b. constructor; [|constructor].
    split; [reflexivity|]. exists s. split; [reflexivity|].
    apply elem_of_cons. left. reflexivity. }
  unfold stream_effect. destruct r as [s|e].
  - rewrite ticket_ws_turn_text.
    destruct (fault st (length (wire st))) as [[]|]; cbn [fst snd db fault wire ws_manager];
      (split_and!; [reflexivity|reflexivity|eexists; split_and!;
         [reflexivity|cbn [length]; lia|apply Hecho]|reflexivity]).
  - assert (Hquiet : ∃ new : list attempt, wire st = wire st ++ new ∧
              (length new ≤ length [Raise e : result string])%nat ∧
              Forall (fun a => to a = websocket ∧
                        ∃ s, data a = Raw s ∧ Return s ∈ [Raise e : result string]) new).
    { exists []. rewrite app_nil_r. split_and!; [reflexivity|cbn [length]; lia|].
      constructor. }
    destruct e; cbn [ticket_ws_turn]; try (rewrite ticket_ws_turn_error by discriminate;
      cbn [fst snd]; split_and!; [reflexivity|reflexivity|exact Hquiet|reflexivity]).
    rewrite ticket_ws_turn_disconnect. cbn [fst snd db fault wire ws_manager].
    split_and!; [reflexivity|reflexivity|exact Hquiet|reflexivity].
Qed.

Lemma stream_effect_cons websocket ticket_id r inbox x st st1 :
  stream_effect websocket ticket_id [r] x st st1 →
  stream_effect websocket ticket_id (r :: inbox) x st st1.
Proof.
  intros (Hdb & Hf & (new & Hw & Hlen & Hall) & Hm).
  split_and!; [exact Hdb|exact Hf| |exact Hm].
  exists new. split_and!; [exact Hw|cbn [length] in *; lia|].
  eapply list.Forall_impl; [exact Hall|]. intros a [Hto (s & Hs & Hin)].
  split; [exact Hto|]. exists s. split; [exact Hs|].
  apply list_elem_of_singleton in Hin. rewrite Hin. apply elem_of_cons. by left.
Qed.

Lemma stream_effect_seq websocket ticket_id r inbox x st st1 st2 :
  stream_effect websocket ticket_id [r] (Return Pending) st st1 →
  stream_effect websocket ticket_id inbox x st1 st2 →
  stream_effect websocket ticket_id (r :: inbox) x st st2.
Proof.
  intros (Hdb1 & Hf1 & (new1 & Hw1 & Hlen1 & Hall1) & Hm1)
         (Hdb2 & Hf2 & (new2 & Hw2 & Hlen2 & Hall2) & Hm2).
  cbn beta iota in Hm1.
  split_and!; [congruence|congruence| |rewrite <- Hm1; exact Hm2].
  exists (new1 ++ new2). split_and!.
  - rewrite Hw2, Hw1, app_assoc. reflexivity.
  - rewrite length_app. cbn [length] in *. lia.
  - apply list.Forall_app. split.
    + eapply list.Forall_impl; [exact Hall1|]. intros a [Hto (s & Hs & Hin)].
      split; [exact Hto|]. exists s. split; [exact Hs|].
      apply list_elem_of_singleton in Hin. rewrite Hin. apply elem_of_cons. by left.
    + eapply list.Forall_impl; [exact Hall2|]. intros a [Hto (s & Hs & Hin)].
      split; [exact Hto|]. exists s. split; [exact Hs|].
      apply elem_of_cons. by right.
Qed.

Lemma ticket_ws_loop_effect websocket ticket_id inbox st :
  stream_effect websocket ticket_id inbox
    (ticket_ws_loop websocket ticket_id inbox st).1 st
    (ticket_ws_loop websocket ticket_id inbox st).2.
Proof.
  revert st. induction inbox as [|r inbox IH]; intros st.
  - cbn [ticket_ws_loop]. unfold_M. cbn [fst snd].
    split_and!; [reflexivity|reflexivity| |reflexivity].
    exists []. rewrite app_nil_r. split_and!; [reflexivity|reflexivity|constructor].
  - cbn [ticket_ws_loop]. unfold_M.
    pose proof (ticket_ws_turn_effect websocket ticket_id r st) as Hturn.
    destruct (ticket_ws_turn websocket ticket_id r st) as [[[]|e] st1];
      cbn [fst snd] in Hturn.
    + eapply stream_effect_seq; [exact Hturn|apply IH].
    + cbn [fst snd]. apply stream_effect_cons. exact Hturn.
    + cbn [fst snd]. apply stream_effect_cons. exact Hturn.
Qed.

(** A stream keeps to its own connection and ticket.  Whatever arrives on
    it and whatever the transport does, [ticket_ws] leaves the store alone,
    sends nothing but echoes, to its own connection, of texts that arrived
    (at most one per frame), and changes no registration but its own. *)
Theorem ticket_ws_keeps_to_itself websocket ticket_id accept inbox st :
  let out := ticket_ws websocket ticket_id accept inbox st in
  db out.2 = db st ∧
  (∃ new, wire out.2 = wire st ++ new ∧
          (length new ≤ length inbox)%nat ∧
          Forall (fun a => to a = websocket ∧
                           ∃ s, data a = Raw s ∧ Return s ∈ inbox) new) ∧
  (∀ t, t ≠ ticket_id →
        conns (ws_manager out.2) t = conns (ws_manager st) t) ∧
  (∀ w, w ≠ websocket →
        registrations (ws_manager out.2) ticket_id w =
        registrations (ws_manager st) ticket_id w).
Proof.
  intros out. unfold out, ticket_ws. unfold_M. rewrite ws_connect_spec.
  destruct accept as [[]|e]; cbn [connect fst snd].
  2:{ split_and!; [reflexivity| |reflexivity..].
      exists []. rewrite app_nil_r. split_and!; [reflexivity|cbn [length]; lia|constructor]. }
  set (st1 := mkState _ _ _ _).
  destruct (ticket_ws_loop_effect websocket ticket_id inbox st1)
    as (Hdb & _ & Hwire & Hm).
  set (m1 := (connect (ws_manager st) ticket_id websocket (Return tt)).2) in *.
  assert (Hm' : ws_manager (ticket_ws_loop websocket ticket_id inbox st1).2 = m1 ∨
                ws_manager (ticket_ws_loop websocket ticket_id inbox st1).2 =
                disconnect m1 ticket_id websocket).
  { destruct (ticket_ws_loop websocket ticket_id inbox st1).1 as [[]|];
      [left|right|left]; exact Hm. }
  clear Hm.
  destruct (ticket_ws_loop websocket ticket_id inbox st1) as [[s|e] st2];
    cbn [fst snd] in *.
  all: split_and!; [exact Hdb|exact Hwire| |].
  all: try (intros t Ht; destruct Hm' as [-> | ->];
            [|rewrite conns_disconnect_ne by exact Ht];
            unfold m1; rewrite conns_connect_ne by exact Ht; reflexivity).
  all: intros w Hw; destruct Hm' as [-> | ->];
       [|rewrite registrations_disconnect, decide_False by congruence];
       unfold m1; rewrite registrations_connect, decide_False by congruence; lia.
Qed.

Lemma State_eta st : mkState (db st) (ws_manager st) (wire st) (fault st) = st.
Proof. destruct st. reflexivity. Qed.

(** A stream whose handshake fails is never registered: [ticket_ws] raises
    the error of [accept] without reading a frame, and the state is what it
    was. *)
Theorem refused_handshake_registers_nothing websocket ticket_id e inbox st :
  ticket_ws websocket ticket_id (Raise e) inbox st = (Raise e, st).
Proof.
  unfold ticket_ws. unfold_M. rewrite ws_connect_spec. cbn [connect fst snd].
  rewrite State_eta. reflexivity.
Qed.

(** Only [WebSocketDisconnect] unsubscribes.  When [receive_text], or the
    echo, raises anything else, [ticket_ws] lets the error through and the
    connection stays registered: the loop of a publish whose iterator is at
    the place of the connection in the list still calls it. *)
Theorem other_errors_leave_the_registration websocket ticket_id e st :
  (∀ code, e ≠ WebSocketDisconnect code) →
  ticket_ws_turn websocket ticket_id (Raise e) st = (Raise e, st) ∧
  (∀ s, fault st (length (wire st)) = Some e →
        (ticket_ws_turn websocket ticket_id (Return s) st).1 = Raise e ∧
        ws_manager (ticket_ws_turn websocket ticket_id (Return s) st).2 =
          ws_manager st) ∧
  (∀ doc p i,
     conns (ws_manager st) ticket_id !! i = Some websocket →
     encode_doc doc = Some p →
     let st' := (ticket_ws_turn websocket ticket_id (Raise e) st).2 in
     (post_message_turn (Registered ticket_id) doc i st').1 = Return true ∧
     to <$> drop (length (wire st'))
              (wire (post_message_turn (Registered ticket_id) doc i st').2) =
       [websocket]).
Proof.
  intros He. split_and!.
  - apply ticket_ws_turn_error. exact He.
  - intros s Hf. rewrite ticket_ws_turn_text, Hf.
    destruct e; try (split; reflexivity). destruct (He code). reflexivity.
  - intros doc p i Hi Hp st'. unfold st'.
    rewrite ticket_ws_turn_error by exact He. cbn [snd].
    rewrite post_message_turn_spec. cbn [items]. rewrite Hi, Hp.
    split; [reflexivity|]. cbn [snd set_wire wire].
    rewrite drop_app_length. reflexivity.
Qed.

Lemma other_errors_leave_the_registration_witness :
  ticket_ws_turn 2 "T1" (Raise (RuntimeError "binary frame")) three_listeners =
  (Raise (RuntimeError "binary frame"), three_listeners).
Proof.
  apply (other_errors_leave_the_registration 2 "T1" (RuntimeError "binary frame")
           three_listeners).
  discriminate.
Defined.

(** *** The store over a run of the service *)

Lemma post_message_begin_writes ticket_id msg now new_id st :
  db (post_message_begin ticket_id msg now new_id st).2 = db st ∨
  (collection "message" st !! new_id = None ∧
   ∃ v, db (post_message_begin ticket_id msg now new_id st).2 =
        <["message" := <[new_id := v]> (collection "message" st)]> (db st)).
Proof.
  rewrite post_message_begin_spec. case_decide as Ht; [by left|].
  destruct (collection "message" st !! new_id) eqn:Hfresh; [by left|].
  right. split; [reflexivity|]. cbv zeta.
  destruct (ObjectId_of_str _) as [o|]; eexists; reflexivity.
Qed.

Lemma post_message_writes ticket_id msg now new_id st :
  db (post_message ticket_id msg now new_id st).2 = db st ∨
  (collection "message" st !! new_id = None ∧
   ∃ v, db (post_message ticket_id msg now new_id st).2 =
        <["message" := <[new_id := v]> (collection "message" st)]> (db st)).
Proof.
  rewrite post_message_alone.
  pose proof (post_message_begin_writes ticket_id msg now new_id st) as Hdb.
  destruct (post_message_begin ticket_id msg now new_id st) as [[[l doc]|e] s];
    cbn [snd] in *; [|exact Hdb].
  destruct (encode_doc doc); exact Hdb.
Qed.

Lemma step_keeps_messages st e o d :
  collection "message" st !! o = Some d →
  collection "message" (step st e) !! o = Some d.
Proof.
  intros Hd. destruct e; cbn [step].
  - rewrite ws_connect_spec. exact Hd.
  - destruct r as [s|e].
    + rewrite ticket_ws_turn_text. destruct (fault st _) as [[]|]; exact Hd.
    + destruct e; exact Hd.
  - destruct (post_message_writes ticket_id msg now new_id st)
      as [Hdb|[Hfresh [v Hdb]]].
    + rewrite (collection_db_same _ _ _ Hdb). exact Hd.
    + rewrite (collection_db_insert _ _ _ _ Hdb).
      rewrite lookup_insert_ne; [exact Hd|].
      intros ->. rewrite Hfresh in Hd. discriminate Hd.
  - destruct (update_ticket_writes ticket_id payload now st)
      as [Hdb|(o' & v & Hdb)].
    + rewrite (collection_db_same _ _ _ Hdb). exact Hd.
    + assert ("message" ≠ "ticket") as Hne by discriminate.
      rewrite (collection_db_insert_ne st _ "ticket" "message" _ Hne Hdb). exact Hd.
  - rewrite get_ticket_frame. exact Hd.
  - destruct (post_message_begin_writes ticket_id msg now new_id st)
      as [Hdb|[Hfresh [v Hdb]]].
    + rewrite (collection_db_same _ _ _ Hdb). exact Hd.
    + rewrite (collection_db_insert _ _ _ _ Hdb).
      rewrite lookup_insert_ne; [exact Hd|].
      intros ->. rewrite Hfresh in Hd. discriminate Hd.
  - destruct (post_message_turn_frame l doc i st) as (_ & _ & Hdb & _).
    rewrite (collection_db_same _ _ _ Hdb). exact Hd.
Qed.

(** Nothing is ever deleted, and a message never changes: whatever the
    service does (streams opening, frames, disconnects, POSTs, PATCHes,
    GETs), a document that is in a collection stays in it, and a message,
    once stored, is found unchanged under its identifier. *)
Theorem stored_messages_are_immutable st evs :
  (∀ name o, is_Some (collection name st !! o) →
             is_Some (collection name (run st evs) !! o)) ∧
  (∀ o d, collection "message" st !! o = Some d →
          collection "message" (run st evs) !! o = Some d).
Proof.
  split.
  - intros name o. apply run_documents.
  - revert st. induction evs as [|e evs IH]; intros st o d Hd; [exact Hd|].
    rewrite run_cons. apply IH. apply step_keeps_messages. exact Hd.
Qed.

(** A POST that raises has written nothing and notified nobody: it raises
    only because the body names another ticket or because the identifier
    drawn for the message is taken, and the state is then what it was. *)
Theorem post_message_fails_cleanly ticket_id msg now new_id st e :
  new_id < 2 ^ 96 →
  (post_message ticket_id msg now new_id st).1 = Raise e →
  (post_message ticket_id msg now new_id st).2 = st ∧
  (e = HTTPException 400 "ticket_id mismatch" ∧
     MessageSchema.ticket_id msg ≠ ticket_id ∨
   e = DuplicateKeyError ∧ is_Some (collection "message" st !! new_id)).
Proof.
  intros Hid. destruct (decide (MessageSchema.ticket_id msg = ticket_id)) as [Ht|Ht].
  - destruct (collection "message" st !! new_id) as [d|] eqn:Hfresh.
    + rewrite post_message_alone, post_message_begin_spec.
      rewrite decide_False by (intros Hne; apply Hne, Ht).
      rewrite Hfresh. cbn [fst snd].
      intros [= <-]. split; [reflexivity|]. right. split; [reflexivity|by eexists].
    + rewrite post_message_ok by (exact Ht || (split; assumption)).
      cbn [fst]. discriminate.
  - rewrite post_message_alone, post_message_begin_spec.
    rewrite decide_True by exact Ht. cbn [fst snd].
    intros [= <-]. split; [reflexivity|]. left. split; [reflexivity|exact Ht].
Qed.

Lemma post_message_fails_cleanly_witness :
  (post_message "T2" hello noon 5 three_listeners).2 = three_listeners.
Proof.
  apply (post_message_fails_cleanly "T2" hello noon 5 three_listeners
           (HTTPException 400 "ticket_id mismatch")); reflexivity.
Defined.

Lemma step_registrations_open st e ticket_id websocket :
  opens websocket ticket_id e →
  (registrations (ws_manager (step st e)) ticket_id websocket ≤
   registrations (ws_manager st) ticket_id websocket + 1)%nat.
Proof.
  destruct e; cbn [opens]; try contradiction. intros [-> ->].
  cbn [step]. rewrite ws_connect_spec. cbn [snd ws_manager].
  destruct accept as [[]|]; [|cbn [connect snd]; lia].
  rewrite registrations_connect, decide_True by reflexivity. lia.
Qed.

(** Registrations come from opened streams only: after any run of the
    service a connection is registered under a ticket at most as many times
    more than before as streams were opened on it for that ticket.  So from
    start-up, a connection whose stream is opened once is never listed
    twice. *)
Theorem registrations_come_from_opens st evs ticket_id websocket :
  (registrations (ws_manager (run st evs)) ticket_id websocket ≤
   registrations (ws_manager st) ticket_id websocket +
   length (filter (opens websocket ticket_id) evs))%nat.
Proof.
  revert st. induction evs as [|e evs IH]; intros st; [cbn; lia|].
  rewrite run_cons. etrans; [apply IH|].
  destruct (decide (opens websocket ticket_id e)) as [Ho|Ho].
  - rewrite filter_cons_True by exact Ho. cbn [length].
    pose proof (step_registrations_open st e ticket_id websocket Ho). lia.
  - rewrite filter_cons_False by exact Ho.
    pose proof (step_registrations st e ticket_id websocket Ho). lia.
Qed.

(** *** Registration and login *)

Lemma find_one_by_state name query st : (find_one_by name query st).2 = st.
Proof. reflexivity. Qed.

Lemma find_one_by_Some name query st d :
  (find_one_by name query st).1 = Return (Some d) →
  ∃ o, collection name st !! o = Some d ∧ matches query d.
Proof.
  unfold find_one_by. cbn [fst]. intros Hr%Return_inj.
  destruct (list_find _ _) as [[i [o d']]|] eqn:Hfind; [|discriminate Hr].
  cbn in Hr. apply Some_inj' in Hr. subst d'.
  apply list_find_Some in Hfind as (Hi & Hm & _).
  exists o. split; [|exact Hm].
  apply elem_of_map_to_list. eapply list_elem_of_lookup_2. exact Hi.
Qed.

Lemma find_one_by_None name query st :
  (find_one_by name query st).1 = Return None →
  ∀ o d, collection name st !! o = Some d → ¬ matches query d.
Proof.
  unfold find_one_by. cbn [fst]. intros Hr%Return_inj.
  destruct (list_find _ _) as [[i [o' d']]|] eqn:Hfind; [discriminate Hr|].
  intros o d Hd Hm. rewrite list_find_None in Hfind.
  rewrite list.Forall_forall in Hfind.
  apply (Hfind (o, d)); [|exact Hm]. apply elem_of_map_to_list. exact Hd.
Qed.

Lemma find_one_by_cases name query st :
  (∃ o d, (find_one_by name query st).1 = Return (Some d) ∧
          collection name st !! o = Some d ∧ matches query d) ∨
  ((find_one_by name query st).1 = Return None ∧
   ∀ o d, collection name st !! o = Some d → ¬ matches query d).
Proof.
  destruct (find_one_by name query st).1 as [[d|]|e] eqn:Hr.
  - left. destruct (find_one_by_Some _ _ _ _ Hr) as (o & Hd & Hm).
    exists o, d. split_and!; [reflexivity|exact Hd|exact Hm].
  - right. split; [reflexivity|]. apply find_one_by_None. exact Hr.
  - unfold find_one_by in Hr. cbn [fst] in Hr. discriminate Hr.
Qed.

(** If exactly the document under [o] matches, that is the one found. *)
Lemma find_one_by_unique name query st o d :
  collection name st !! o = Some d → matches query d →
  (∀ o' d', collection name st !! o' = Some d' → matches query d' → o' = o) →
  (find_one_by name query st).1 = Return (Some d).
Proof.
  intros Hd Hm Huniq.
  destruct (find_one_by_cases name query st)
    as [(o' & d' & Hr & Hd' & Hm')|[_ Hnone]].
  - rewrite Hr. assert (o' = o) as -> by (eapply Huniq; eassumption).
    rewrite Hd in Hd'. congruence.
  - destruct (Hnone o d Hd Hm).
Qed.

Lemma matches_email e d :
  matches {["email" := VStr e]} d ↔ d !! "email" = Some (VStr e).
Proof.
  unfold matches. rewrite map_Forall_singleton. reflexivity.
Qed.

Lemma matches_credentials e h d :
  matches (<["email" := VStr e]>
           (<["password_hash" := VStr h]> (<["is_active" := VBool true]> ∅))) d ↔
  d !! "email" = Some (VStr e) ∧ d !! "password_hash" = Some (VStr h) ∧
  d !! "is_active" = Some (VBool true).
Proof.
  unfold matches. rewrite !map_Forall_insert.
  - split; [intros (? & ? & ? & _); auto|].
    intros (? & ? & ?). split_and!; try assumption. apply map_Forall_empty.
  - apply lookup_empty.
  - rewrite lookup_insert_ne by discriminate. apply lookup_empty.
  - rewrite !lookup_insert_ne by discriminate. apply lookup_empty.
Qed.





(** [login] never changes the state.  It answers only with a stored,
    active user that has the e-mail address and the password hash given,
    and the token is ["demo-"] followed by that address; its only error is
    401. *)
Theorem login_reads payload st :
  (login payload st).2 = st ∧
  (∀ resp, (login payload st).1 = Return resp →
     ∃ o d, collection "user" st !! o = Some d ∧
            d !! "email" = Some (VStr (LoginPayload.email payload)) ∧
            d !! "password_hash" = Some (VStr (LoginPayload.password_hash payload)) ∧
            d !! "is_active" = Some (VBool true) ∧
            user resp = encode_doc (Some d) ∧
            token resp = ("demo-" ++ LoginPayload.email payload)%string) ∧
  (∀ e, (login payload st).1 = Raise e →
        e = HTTPException 401 "Invalid credentials").
Proof.
  unfold login. unfold_M.
  set (query := <["email" := _]> _).
  destruct (find_one_by_cases "user" query st)
    as [(o & d & Hr & Hd & Hm)|[Hr Hnone]];
    pose proof (find_one_by_state "user" query st) as Hst;
    destruct (find_one_by "user" query st) as [r s]; cbn [fst snd] in *; subst r s.
  - apply matches_credentials in Hm as (He & Hh & Ha).
    rewrite decide_False by (intros ->; rewrite lookup_empty in He; discriminate He).
    rewrite He. cbn [fst snd py_str]. split_and!; [reflexivity| |discriminate].
    intros resp Hresp%Return_inj. subst resp. exists o, d.
    split_and!; [exact Hd|exact He|exact Hh|exact Ha|reflexivity|reflexivity].
  - cbn [fst snd]. split_and!; [reflexivity|discriminate|].
    intros e He. injection He as <-. reflexivity.
Qed.

Lemma find_one_by_eta name query st :
  find_one_by name query st = ((find_one_by name query st).1, st).
Proof. reflexivity. Qed.

Lemma user_doc_fields payload r now new_id :
  user_doc payload r now new_id !! "email" =
    Some (VStr (RegisterPayload.email payload)) ∧
  user_doc payload r now new_id !! "password_hash" =
    Some (VStr (RegisterPayload.password_hash payload)) ∧
  user_doc payload r now new_id !! "is_active" = Some (VBool true).
Proof.
  unfold user_doc, UserSchema.model_dump.
  cbn [UserSchema.email UserSchema.password_hash UserSchema.is_active].
  split_and!; rewrite !lookup_insert_ne by discriminate; apply lookup_insert_eq.
Qed.

Lemma register_taken payload now new_id st o d :
  collection "user" st !! o = Some d →
  d !! "email" = Some (VStr (RegisterPayload.email payload)) →
  register payload now new_id st =
  (Raise (HTTPException 409 "Email already registered"), st).
Proof.
  intros Hd He. unfold register. unfold_M. rewrite find_one_by_eta.
  destruct (find_one_by_cases "user"
              {["email" := VStr (RegisterPayload.email payload)]} st)
    as [(o' & d' & -> & Hd' & Hm)|[_ Hnone]].
  - rewrite decide_True; [reflexivity|]. split; [discriminate|].
    intros Heq%Some_inj'. subst d'. apply matches_email in Hm.
    rewrite lookup_empty in Hm. discriminate Hm.
  - destruct (Hnone o d Hd). apply matches_email. exact He.
Qed.

Lemma register_new payload r now new_id st :
  RegisterPayload.role payload = Some r →
  (∀ o d, collection "user" st !! o = Some d →
          d !! "email" ≠ Some (VStr (RegisterPayload.email payload))) →
  can_insert "user" new_id st →
  register payload now new_id st =
  (Return (encode_doc (Some (user_doc payload r now new_id))),
   mkState (<["user" := <[new_id := user_doc payload r now new_id]>
                          (collection "user" st)]> (db st))
     (ws_manager st) (wire st) (fault st)).
Proof.
  intros Hrole Hnew [Hid Hfresh]. unfold register. unfold_M. rewrite find_one_by_eta.
  destruct (find_one_by_cases "user"
              {["email" := VStr (RegisterPayload.email payload)]} st)
    as [(o' & d' & _ & Hd' & Hm)|[-> _]].
  { destruct (Hnew o' d' Hd'). apply matches_email. exact Hm. }
  rewrite decide_False by (intros [Hx _]; apply Hx; reflexivity).
  rewrite Hrole. unfold create_document, insert_one, find_one, ObjectId_new.
  unfold_M. rewrite Hfresh. rewrite ObjectId_of_str_str by exact Hid.
  unfold set_db. cbn [db ws_manager wire fault].
  rewrite !collection_insert, lookup_insert_eq. reflexivity.
Qed.

(** Registration and login fit together.  Registering an address that no
    user has stores the user and answers with it; the same address and
    password hash then log in, with the same user and the token
    ["demo-" + address]; another hash is refused with 401; and a second
    registration of the address is refused with 409 and changes nothing. *)
Theorem registered_user_can_log_in payload r now new_id st :
  RegisterPayload.role payload = Some r →
  (∀ o d, collection "user" st !! o = Some d →
          d !! "email" ≠ Some (VStr (RegisterPayload.email payload))) →
  can_insert "user" new_id st →
  let out := register payload now new_id st in
  let me := encode_doc (Some (user_doc payload r now new_id)) in
  out.1 = Return me ∧
  login (LoginPayload.mk (RegisterPayload.email payload)
           (RegisterPayload.password_hash payload)) out.2 =
    (Return (mkLoginResponse me
               ("demo-" ++ RegisterPayload.email payload)%string), out.2) ∧
  (∀ h, h ≠ RegisterPayload.password_hash payload →
        login (LoginPayload.mk (RegisterPayload.email payload) h) out.2 =
        (Raise (HTTPException 401 "Invalid credentials"), out.2)) ∧
  (∀ payload' now' new_id',
     RegisterPayload.email payload' = RegisterPayload.email payload →
     register payload' now' new_id' out.2 =
     (Raise (HTTPException 409 "Email already registered"), out.2)).
Proof.
  intros Hrole Hnew Hins out me. unfold out.
  rewrite (register_new _ _ _ _ _ Hrole Hnew Hins). cbn [fst snd].
  set (st' := mkState _ _ _ _).
  destruct (user_doc_fields payload r now new_id) as (He & Hh & Ha).
  assert (Hcoll : collection "user" st' =
                  <[new_id := user_doc payload r now new_id]> (collection "user" st))
    by apply collection_insert.
  assert (Hmine : collection "user" st' !! new_id =
                  Some (user_doc payload r now new_id))
    by (rewrite Hcoll; apply lookup_insert_eq).
  assert (Honly : ∀ o d, collection "user" st' !! o = Some d →
                         d !! "email" = Some (VStr (RegisterPayload.email payload)) →
                         o = new_id ∧ d = user_doc payload r now new_id).
  { intros o d. rewrite Hcoll.
    intros [[<- <-]|[_ Hd]]%lookup_insert_Some Hemail; [split; reflexivity|].
    destruct (Hnew o d Hd Hemail). }
  split_and!.
  - reflexivity.
  - unfold login. unfold_M.
    cbn [LoginPayload.email LoginPayload.password_hash]. rewrite find_one_by_eta.
    rewrite (find_one_by_unique "user" _ st' new_id (user_doc payload r now new_id)).
    + rewrite decide_False
        by (intros Hempty; rewrite Hempty, lookup_empty in He; discriminate He).
      rewrite He. reflexivity.
    + exact Hmine.
    + apply matches_credentials. split_and!; assumption.
    + intros o' d' Hd' (He' & _)%matches_credentials.
      apply (Honly o' d' Hd' He').
  - intros h Hh'. unfold login. unfold_M.
    cbn [LoginPayload.email LoginPayload.password_hash]. rewrite find_one_by_eta.
    destruct (find_one_by_cases "user"
                (<["email" := VStr (RegisterPayload.email payload)]>
                 (<["password_hash" := VStr h]> (<["is_active" := VBool true]> ∅)))
                st')
      as [(o' & d' & _ & Hd' & Hm)|[-> _]]; [|reflexivity].
    apply matches_credentials in Hm as (He' & Hh'' & _).
    destruct (Honly o' d' Hd' He') as [_ ->]. rewrite Hh in Hh''.
    destruct Hh'. congruence.
  - intros payload' now' new_id' Hsame.
    apply (register_taken payload' now' new_id' st' new_id
             (user_doc payload r now new_id) Hmine).
    rewrite Hsame. exact He.
Qed.

Lemma registered_user_can_log_in_witness :
  login (LoginPayload.mk "alice@example.com" "5e884898")
    (register alice noon 9 empty_service).2 =
  (Return (mkLoginResponse
             (encode_doc (Some (user_doc alice UserSchema.agent noon 9)))
             "demo-alice@example.com"),
   (register alice noon 9 empty_service).2).
Proof.
  destruct (registered_user_can_log_in alice UserSchema.agent noon 9 empty_service)
    as (_ & Hlogin & _).
  - reflexivity.
  - intros o d Hd. unfold collection in Hd. cbn in Hd.
    rewrite lookup_empty in Hd. cbn in Hd. rewrite lookup_empty in Hd.
    discriminate Hd.
  - apply can_insert_empty. reflexivity.
  - exact Hlogin.
Defined.

(** *** Instances of the statements above *)

Lemma get_ticket_reads_witness :
  ∃ o d, ObjectId_of_str "000000000000000000000001" = Some o ∧
         collection "ticket" one_ticket !! o = Some d ∧
         encode_doc (Some (ticket_doc demo_ticket noon 1)) = encode_doc (Some d).
Proof.
  destruct (get_ticket_reads "000000000000000000000001" one_ticket) as (_ & Hfound & _).
  apply Hfound. vm_compute. reflexivity.
Defined.

Lemma update_ticket_fails_cleanly_witness :
  (update_ticket "not-an-id" close_it later one_ticket).2 = one_ticket.
Proof.
  destruct (update_ticket_fails_cleanly "not-an-id" close_it later one_ticket)
    as [Hraise _].
  apply (Hraise (HTTPException 400 "Invalid ID format")). vm_compute. reflexivity.
Defined.

Lemma ticket_ws_keeps_to_itself_witness :
  conns (ws_manager
           (ticket_ws 9 "T2" (Return tt)
              [Return "hi"; Raise (WebSocketDisconnect 1000)] three_listeners).2) "T1"
  = [1; 2; 3]%nat.
Proof.
  destruct (ticket_ws_keeps_to_itself 9 "T2" (Return tt)
              [Return "hi"; Raise (WebSocketDisconnect 1000)] three_listeners)
    as (_ & _ & Hother & _).
  apply (Hother "T1"). discriminate.
Defined.

Lemma stored_messages_are_immutable_witness :
  collection "message"
    (run (post_message "T1" hello noon 5 empty_service).2
       [PostMessage "T1" goodbye later 6; PatchTicket "x" close_it later]) !! 5
  = Some (message_doc hello noon 5).
Proof.
  destruct (stored_messages_are_immutable
              (post_message "T1" hello noon 5 empty_service).2
              [PostMessage "T1" goodbye later 6; PatchTicket "x" close_it later])
    as [_ Hsame].
  apply Hsame. vm_compute. reflexivity.
Defined.

Lemma login_reads_witness :
  ∃ o d, collection "user" (register alice noon 9 empty_service).2 !! o = Some d ∧
         d !! "email" = Some (VStr "alice@example.com").
Proof.
  destruct (login_reads (LoginPayload.mk "alice@example.com" "5e884898")
              (register alice noon 9 empty_service).2) as (_ & Hok & _).
  destruct (Hok (mkLoginResponse
                   (encode_doc (Some (user_doc alice UserSchema.agent noon 9)))
                   "demo-alice@example.com"))
    as (o & d & Hd & He & _).
  - vm_compute. reflexivity.
  - exists o, d. split; [exact Hd|exact He].
Defined.

